(** * django-autotranslate: translator services and their resolver

    A shallow embedding of [autotranslate/services.py] (the translator
    classes) and [autotranslate/config.py] ([get_translator]), and the
    properties of the package's specification stated over it.

    Conventions of the embedding:
    - Python classes are the values of [pyclass]; attribute lookup walks the
      method resolution order, as Python does.
    - Code with effects is a [prog]: it reads the history of what happened so
      far, and returns the events it adds together with a value or a raised
      exception.
    - The translation providers (googletrans, the Google API client, boto3)
      and what can be imported are not code of this package: they are fields
      of an [environment], and every property is stated for all of them.
    - A generator is a state ([generator]) with a one-transition function
      ([gen_step]); [next] and [consume] drive it with a bound on the number
      of transitions, since a Python [while] loop need not finish. *)

From Stdlib Require Import Ascii.
From stdpp Require Import gmap strings list.

(** ** Classes *)

(** The classes of [services.py], Python's [object], and classes declared
    elsewhere with an empty body: [Subclass m n b] is
    [class n(b): pass] in module [m].  These are plain classes: their
    metaclass is [type] and none has a subclass hook.  Classes with a
    metaclass of their own, or abstract base classes with
    [__subclasshook__] or registered virtual subclasses, are not values of
    this type. *)
Inductive pyclass : Type :=
  | object_
  | BaseTranslatorService
  | GoogleTranslatorService
  | GoogleAPITranslatorService
  | AmazonTranslateTranslatorService
  | Subclass (module name : string) (base : pyclass).

Global Instance pyclass_eq_dec : EqDecision pyclass.
Proof. solve_decision. Defined.

(** [cls.__bases__] has at most one class here (single inheritance). *)
Definition class_base (c : pyclass) : option pyclass :=
  match c with
  | object_ => None
  | BaseTranslatorService => Some object_
  | GoogleTranslatorService
  | GoogleAPITranslatorService
  | AmazonTranslateTranslatorService => Some BaseTranslatorService
  | Subclass _ _ b => Some b
  end.

(** [cls.__mro__]: the class, then the order of its base. *)
Fixpoint mro (c : pyclass) : list pyclass :=
  match c with
  | object_ => [object_]
  | BaseTranslatorService => [BaseTranslatorService; object_]
  | GoogleTranslatorService =>
      [GoogleTranslatorService; BaseTranslatorService; object_]
  | GoogleAPITranslatorService =>
      [GoogleAPITranslatorService; BaseTranslatorService; object_]
  | AmazonTranslateTranslatorService =>
      [AmazonTranslateTranslatorService; BaseTranslatorService; object_]
  | Subclass _ _ b => c :: mro b
  end.

(** [cls.__module__] and [cls.__name__]. *)
Definition class_module (c : pyclass) : string :=
  match c with
  | object_ => "builtins"
  | Subclass m _ _ => m
  | _ => "autotranslate.services"
  end.

Definition class_name (c : pyclass) : string :=
  match c with
  | object_ => "object"
  | BaseTranslatorService => "BaseTranslatorService"
  | GoogleTranslatorService => "GoogleTranslatorService"
  | GoogleAPITranslatorService => "GoogleAPITranslatorService"
  | AmazonTranslateTranslatorService => "AmazonTranslateTranslatorService"
  | Subclass _ n _ => n
  end.

(** [str(cls)]: builtins print without their module. *)
Definition class_str (c : pyclass) : string :=
  match c with
  | object_ => "<class 'object'>"
  | _ => "<class '" +:+ class_module c +:+ "." +:+ class_name c +:+ "'>"
  end.

(** [issubclass(c, d)] for two plain classes: [d] is in the resolution
    order of [c].  (For a class [d] with a subclass hook Python asks the
    hook instead; there is no such class in [pyclass].) *)
Definition subclass_of (c d : pyclass) : bool := bool_decide (d ∈ mro c).

(** ** Values *)

(** What a Django setting or an imported attribute can hold, as far as the
    package looks at it: [None], a string, a class, or some other object,
    which carries its [str()] and its truth value.  [VObj] stands for
    objects that are none of the former and not a tuple or union of
    classes either (numbers, booleans, instances, functions, ...). *)
Inductive pyval : Type :=
  | VNone
  | VStr (s : string)
  | VClass (c : pyclass)
  | VObj (repr : string) (truth : bool).

Global Instance pyval_eq_dec : EqDecision pyval.
Proof. solve_decision. Defined.

(** [str(v)], what [str.format] puts in place of a field. *)
Definition py_str (v : pyval) : string :=
  match v with
  | VNone => "None"
  | VStr s => s
  | VClass c => class_str c
  | VObj r _ => r
  end.

(** [bool(v)], what [if not v] tests. *)
Definition truthy (v : pyval) : bool :=
  match v with
  | VNone => false
  | VStr s => negb (bool_decide (s = ""))
  | VClass _ => true
  | VObj _ t => t
  end.

(** ** Exceptions and results *)

(** The exceptions the package raises itself, and [ProviderError] for
    whatever a provider client raises: the package lets those through
    unchanged and never builds one. *)
Inductive exn : Type :=
  | ImproperlyConfigured (msg : string)
  | ImportError (msg : string)
  | NotImplementedError (msg : string)
  | TypeError (msg : string)
  | ValueError (msg : string)
  | KeyError (msg : string)
  | IndexError (msg : string)
  | AttributeError (msg : string)
  | ProviderError (what : string).

Inductive result (A : Type) : Type :=
  | Ok (a : A)
  | Raise (e : exn).
Arguments Ok {A} a.
Arguments Raise {A} e.

Definition is_ImportError (e : exn) : bool :=
  match e with ImportError _ => true | _ => false end.
Definition is_NotImplementedError (e : exn) : bool :=
  match e with NotImplementedError _ => true | _ => false end.

(** ** Message formatting *)

Definition kwargs := list (string * string).

Fixpoint kw_lookup (k : string) (kw : kwargs) : option string :=
  match kw with
  | [] => None
  | (k', v) :: kw' => if bool_decide (k = k') then Some v else kw_lookup k kw'
  end.

(** [template.format(name=value, ...)] for templates whose replacement
    fields are plain names ([{name}], no doubled braces, conversions or
    format specifications): text is copied, a field is replaced by the
    keyword's value, an unknown name raises [KeyError], a brace without its
    partner raises [ValueError].  [field] is the name being read, if the
    scan is inside braces. *)
Fixpoint format_go (template : string) (field : option string) (kw : kwargs)
  : result string :=
  match template, field with
  | EmptyString, None => Ok ""
  | EmptyString, Some EmptyString =>
      Raise (ValueError "Single '{' encountered in format string")
  | EmptyString, Some (String _ _) =>
      Raise (ValueError "expected '}' before end of string")
  | String c rest, None =>
      if bool_decide (c = "{"%char) then format_go rest (Some "") kw
      else if bool_decide (c = "}"%char) then
        Raise (ValueError "Single '}' encountered in format string")
      else match format_go rest None kw with
           | Ok s => Ok (String c s)
           | Raise e => Raise e
           end
  | String c rest, Some name =>
      if bool_decide (c = "}"%char) then
        match kw_lookup name kw with
        | None => Raise (KeyError name)
        | Some v =>
            match format_go rest None kw with
            | Ok s => Ok (v +:+ s)
            | Raise e => Raise e
            end
        end
      else format_go rest (Some (name +:+ String c "")) kw
  end.

Definition format (template : string) (kw : kwargs) : result string :=
  format_go template None kw.

(** [django.utils.translation.gettext]: the package ships no catalogue for
    its messages, so the message id is what comes back. *)
Definition gettext (msgid : string) : string := msgid.

Example format_demo :
  format (gettext "{function}() must be overridden.")
         [("function", "translate_string")]
  = Ok "translate_string() must be overridden.".
Proof. reflexivity. Qed.

(** ** Events, providers and the environment *)

(** A handle on a provider, what [self.service] holds. *)
Inductive client : Type :=
  | GoogletransTranslator                      (* googletrans.Translator() *)
  | GoogleApiResource (developerKey : pyval)   (* build("translate", "v2", developerKey=...) *)
  | BotoTranslateClient.                       (* boto3.client("translate") *)

Global Instance client_eq_dec : EqDecision client.
Proof. solve_decision. Defined.

(** A call on a provider client, with the arguments the package passes. *)
Inductive request : Type :=
  | GoogletransTranslate (text dest src : string)
  | GoogletransTranslateMany (texts : list string) (dest src : string)
  | TranslationsList (source target : string) (q : list string)
  | TranslateText (Text SourceLanguageCode TargetLanguageCode : string).

(** What came back: the text of one translation, the texts of a list of
    translations in the order the provider gave them, or an exception. *)
Inductive response : Type :=
  | OneText (s : string)
  | Texts (l : list string)
  | Failed (what : string).

Inductive event : Type :=
  | ImportStmt (module : string) (found : bool)
  | ClientBuilt (c : client)
  | Called (rq : request) (rs : response)
  | Yielded (s : string).

(** A provider's answer to a call. *)
Inductive reply (A : Type) : Type :=
  | Reply (a : A)
  | Fails (what : string).
Arguments Reply {A} a.
Arguments Fails {A} what.

(** Everything outside the package.  The providers see the history, so that
    their answers may change from one call to the next.  A provider either
    raises or returns an answer of the shape the package reads: an object
    with [.text], a list of such objects, a response whose [translations]
    is a list of entries with [translatedText], a response with
    [TranslatedText]; the field below gives the texts of that answer.  What
    the package does on an answer of another shape is not modelled. *)
Record environment : Type := {
  (** attributes of [django.conf.settings] *)
  settings : gmap string pyval;
  (** modules an [import] statement finds *)
  modules : gset string;
  (** dotted paths [django.utils.module_loading.import_string] resolves *)
  import_table : gmap string pyval;
  (** building a client may raise; [None] is success *)
  client_error : client → option string;
  (** [googletrans.Translator.translate] on one text: [.text] of the result *)
  googletrans_translate : list event → string → string → string → reply string;
  (** the same on a list of texts: [.text] of each item of the result *)
  googletrans_translate_many :
    list event → list string → string → string → reply (list string);
  (** [translations().list(source, target, q).execute()]: the
      [translatedText] of each entry of the response's [translations] *)
  translations_list :
    list event → string → string → list string → reply (list string);
  (** boto3 [translate_text]: the response's [TranslatedText] *)
  translate_text : list event → string → string → string → reply string;
}.

(** ** Programs with effects *)

(** A program is run after a history and gives the events it adds and its
    outcome. *)
Definition prog (A : Type) : Type := list event → list event * result A.

Global Instance prog_ret : MRet prog := λ A a _, ([], Ok a).

Global Instance prog_bind : MBind prog := λ A B f m h,
  match m h with
  | (t, Ok a) => match f a (h ++ t) with (t', r) => (t ++ t', r) end
  | (t, Raise e) => (t, Raise e)
  end.

Definition raise {A} (e : exn) : prog A := λ _, ([], Raise e).

Definition emit (e : event) : prog unit := λ _, ([e], Ok tt).

Definition lift {A} (r : result A) : prog A := λ _, ([], r).

(** [try: body / except E: handler], where [handler e] is [None] when the
    [except] clause does not match [e]. *)
Definition try_except {A} (body : prog A) (handler : exn → option (prog A))
  : prog A := λ h,
  match body h with
  | (t, Ok a) => (t, Ok a)
  | (t, Raise e) =>
      match handler e with
      | None => (t, Raise e)
      | Some k => match k (h ++ t) with (t', r) => (t ++ t', r) end
      end
  end.

(** One call on a provider: the answer is recorded in the history, and an
    exception of the provider is raised as it is. *)
Definition call_provider {A} (rq : request) (wrap : A → response)
    (answer : list event → reply A) : prog A := λ h,
  match answer h with
  | Reply a => ([Called rq (wrap a)], Ok a)
  | Fails w => ([Called rq (Failed w)], Raise (ProviderError w))
  end.

(** The dotted prefixes of a module name, shortest first: [a], [a.b] and
    [a.b.c] for [a.b.c]. *)
Fixpoint dotted_prefixes_go (seen rest : string) : list string :=
  match rest with
  | EmptyString => [seen]
  | String c rest' =>
      if bool_decide (c = "."%char)
      then seen :: dotted_prefixes_go (seen +:+ ".") rest'
      else dotted_prefixes_go (seen +:+ String c "") rest'
  end.

Definition dotted_prefixes (module : string) : list string :=
  dotted_prefixes_go "" module.

(** The name a failed import reports: packages are imported from the left,
    so it is the first prefix of the path that does not import. *)
Definition missing_module (env : environment) (module : string) : string :=
  default module
    (List.find (λ p, negb (bool_decide (p ∈ modules env)))
       (dotted_prefixes module)).

(** [import module], or [from module import name] *)
Definition import_module (env : environment) (module : string) : prog unit :=
  if bool_decide (module ∈ modules env) then emit (ImportStmt module true)
  else _ ← emit (ImportStmt module false);
       raise (ImportError
                ("No module named '" +:+ missing_module env module +:+ "'")).

Definition new_client (env : environment) (c : client) : prog client :=
  _ ← emit (ClientBuilt c);
  match client_error env c with
  | None => mret c
  | Some w => raise (ProviderError w)
  end.

(** [getattr(settings, name, default)] *)
Definition getattr_settings (env : environment) (name : string)
    (default_value : pyval) : pyval :=
  default default_value (settings env !! name).

(** ** Instances and method resolution *)

(** An instance: its class and the attributes the constructors set
    ([None]: the attribute was never assigned). *)
Record instance : Type := {
  inst_class : pyclass;
  service : option client;
  developer_key : option pyval;
  max_segments : option Z;
  translated_strings : option (list string);
}.

(** What [cls.__new__] gives before [__init__] runs. *)
Definition blank (c : pyclass) : instance :=
  {| inst_class := c; service := None; developer_key := None;
     max_segments := None; translated_strings := None |}.

Definition set_service (self : instance) (s : client) : instance :=
  {| inst_class := inst_class self; service := Some s;
     developer_key := developer_key self; max_segments := max_segments self;
     translated_strings := translated_strings self |}.

Definition set_developer_key (self : instance) (k : pyval) : instance :=
  {| inst_class := inst_class self; service := service self;
     developer_key := Some k; max_segments := max_segments self;
     translated_strings := translated_strings self |}.

Definition set_max_segments (self : instance) (m : Z) : instance :=
  {| inst_class := inst_class self; service := service self;
     developer_key := developer_key self; max_segments := Some m;
     translated_strings := translated_strings self |}.

Definition set_translated_strings (self : instance) (l : list string)
  : instance :=
  {| inst_class := inst_class self; service := service self;
     developer_key := developer_key self; max_segments := max_segments self;
     translated_strings := Some l |}.

Definition attribute_error {A} (self : instance) (attr : string) : prog A :=
  raise (AttributeError ("'" +:+ class_name (inst_class self)
                         +:+ "' object has no attribute '" +:+ attr +:+ "'")).

Definition get_service (self : instance) : prog client :=
  match service self with
  | Some s => mret s
  | None => attribute_error self "service"
  end.

Definition get_max_segments (self : instance) : prog Z :=
  match max_segments self with
  | Some m => mret m
  | None => attribute_error self "max_segments"
  end.

Inductive method : Type :=
  | m_init
  | m_translate_string
  | m_translate_strings.

(** Which names a class body defines. *)
Definition class_defines (c : pyclass) (m : method) : bool :=
  match c, m with
  | object_, m_init => true
  | object_, _ => false
  | BaseTranslatorService, m_init => false
  | BaseTranslatorService, _ => true
  | GoogleTranslatorService, _ => true
  | GoogleAPITranslatorService, _ => true
  | AmazonTranslateTranslatorService, _ => true
  | Subclass _ _ _, _ => false
  end.

(** Attribute lookup on a class: the first class of the resolution order
    that defines the name. *)
Definition resolve (c : pyclass) (m : method) : option pyclass :=
  List.find (λ k, class_defines k m) (mro c).

(** ** Constructors *)

(** [GoogleTranslatorService.__init__] *)
Definition GoogleTranslatorService_init (env : environment) (self : instance)
  : prog instance :=
  _ ← import_module env "googletrans";
  svc ← new_client env GoogletransTranslator;
  mret (set_service self svc).

(** [GoogleAPITranslatorService.__init__] *)
Definition GoogleAPITranslatorService_init (env : environment)
    (self : instance) (max_segments : Z) : prog instance :=
  try_except
    (_ ← import_module env "googleapiclient.discovery";
     let key := getattr_settings env "GOOGLE_TRANSLATE_KEY" VNone in
     let self := set_developer_key self key in
     if negb (truthy key) then
       msg ← lift (format
                (gettext "`{setting}` is not configured, it is required by `{service}`")
                [("setting", "GOOGLE_TRANSLATE_KEY");
                 ("service", class_name (inst_class self))]);
       raise (ImproperlyConfigured msg)
     else
       svc ← new_client env (GoogleApiResource key);
       let self := set_service self svc in
       let self := set_max_segments self max_segments in
       mret (set_translated_strings self []))
    (λ e,
       if is_ImportError e then Some (
         msg ← lift (format
                  (gettext "`{service}` requires the `{package}` package.")
                  [("service", class_name (inst_class self));
                   ("package", "google-api-python-client")]);
         raise (ImportError msg))
       else None).

(** [AmazonTranslateTranslatorService.__init__] *)
Definition AmazonTranslateTranslatorService_init (env : environment)
    (self : instance) : prog instance :=
  try_except
    (_ ← import_module env "boto3";
     svc ← new_client env BotoTranslateClient;
     mret (set_service self svc))
    (λ e,
       if is_ImportError e then Some (
         msg ← lift (format
                  (gettext "`{service}` requires the `{package}` package")
                  [("service", class_name (inst_class self));
                   ("package", "boto3")]);
         raise (ImportError msg))
       else None).

(** [c()]: a new instance of [c], initialised by the [__init__] its
    resolution order finds, called without arguments. *)
Definition construct (env : environment) (c : pyclass) : prog instance :=
  let self := blank c in
  match resolve c m_init with
  | Some GoogleTranslatorService => GoogleTranslatorService_init env self
  | Some GoogleAPITranslatorService =>
      GoogleAPITranslatorService_init env self 128
  | Some AmazonTranslateTranslatorService =>
      AmazonTranslateTranslatorService_init env self
  | _ => mret self
  end.

(** [GoogleAPITranslatorService(max_segments=m)] *)
Definition construct_GoogleAPI (env : environment) (m : Z) : prog instance :=
  GoogleAPITranslatorService_init env (blank GoogleAPITranslatorService) m.

(** ** The resolver: [config.get_translator] *)

Definition SERVICE_SETTING : string := "AUTOTRANSLATE_TRANSLATOR_SERVICE".

(** [import_string(path)]: the attribute the path names, or [ImportError]
    (the text of that error is Django's and [get_translator] drops it). *)
Definition import_string (env : environment) (path : string) : prog pyval :=
  match import_table env !! path with
  | Some v => mret v
  | None => raise (ImportError ("cannot import " +:+ path))
  end.

(** [issubclass(c, classinfo)] *)
Definition issubclass (c : pyclass) (classinfo : pyval) : result bool :=
  match classinfo with
  | VClass d => Ok (subclass_of c d)
  | _ => Raise (TypeError
           "issubclass() arg 2 must be a class, a tuple of classes, or a union")
  end.

(** [v()] *)
Definition call_noargs (env : environment) (v : pyval) : prog instance :=
  match v with
  | VClass c => construct env c
  | _ => raise (TypeError "object is not callable")
  end.

(** Lines 16 to 25 of [config.py]: a string is taken as a dotted path and
    replaced by what it names. *)
Definition resolve_path (env : environment) (translator : pyval)
  : prog pyval :=
  match translator with
  | VStr path =>
      try_except (import_string env path)
        (λ e,
           if is_ImportError e then Some (
             msg ← lift (format
                      (gettext "Could not import the translator service '{translator}' specified in {setting}.")
                      [("translator", py_str translator);
                       ("setting", "settings." +:+ SERVICE_SETTING)]);
             raise (ImproperlyConfigured msg))
           else None)
  | _ => mret translator
  end.

(** Lines 26 to 33: the test on the value, and the call. *)
Definition validate_and_call (env : environment) (translator : pyval)
  : prog instance :=
  rejected ←
    match translator with
    | VNone => mret true
    | _ => b ← lift (issubclass BaseTranslatorService translator);
           mret (negb b)
    end;
  if rejected : bool then
    msg ← lift (format
             (gettext "The translator service '{translator}' specified in {setting} does not subclass BaseTranslatorService.")
             [("translator", py_str translator);
              ("setting", "settings." +:+ SERVICE_SETTING)]);
    raise (ImproperlyConfigured msg)
  else call_noargs env translator.

Definition get_translator (env : environment) : prog instance :=
  let translator :=
    getattr_settings env SERVICE_SETTING (VClass GoogleTranslatorService) in
  translator ← resolve_path env translator;
  validate_and_call env translator.

(** ** Single strings: [translate_string] *)

Definition must_be_overridden {A} (function : string) : prog A :=
  msg ← lift (format (gettext "{function}() must be overridden.")
                     [("function", function)]);
  raise (NotImplementedError msg).

(** [BaseTranslatorService.translate_string] *)
Definition BaseTranslatorService_translate_string (env : environment)
    (self : instance) (text target_language source_language : string)
  : prog string :=
  must_be_overridden "translate_string".

(** [GoogleTranslatorService.translate_string]; [asyncio.run] runs the one
    coroutine to its end. *)
Definition GoogleTranslatorService_translate_string (env : environment)
    (self : instance) (text target_language source_language : string)
  : prog string :=
  _ ← get_service self;
  call_provider (GoogletransTranslate text target_language source_language)
    OneText
    (λ h, googletrans_translate env h text target_language source_language).

(** [GoogleAPITranslatorService.translate_string] *)
Definition GoogleAPITranslatorService_translate_string (env : environment)
    (self : instance) (text target_language source_language : string)
  : prog string :=
  _ ← get_service self;
  translations ←
    call_provider (TranslationsList source_language target_language [text])
      Texts
      (λ h, translations_list env h source_language target_language [text]);
  match translations with
  | [] => raise (IndexError "pop from empty list")
  | translatedText :: _ => mret translatedText
  end.

(** [AmazonTranslateTranslatorService.translate_string] *)
Definition AmazonTranslateTranslatorService_translate_string
    (env : environment) (self : instance)
    (text target_language source_language : string) : prog string :=
  _ ← get_service self;
  call_provider (TranslateText text source_language target_language)
    OneText
    (λ h, translate_text env h text source_language target_language).

(** [self.translate_string(text, target_language, source_language)] *)
Definition translate_string (env : environment) (self : instance)
    (text target_language source_language : string) : prog string :=
  match resolve (inst_class self) m_translate_string with
  | Some BaseTranslatorService =>
      BaseTranslatorService_translate_string env self
        text target_language source_language
  | Some GoogleTranslatorService =>
      GoogleTranslatorService_translate_string env self
        text target_language source_language
  | Some GoogleAPITranslatorService =>
      GoogleAPITranslatorService_translate_string env self
        text target_language source_language
  | Some AmazonTranslateTranslatorService =>
      AmazonTranslateTranslatorService_translate_string env self
        text target_language source_language
  | _ => attribute_error self "translate_string"
  end.

(** ** Sequences of strings: [translate_strings] *)

(** Python slices of a list, [l[:m]] and [l[m:]], for any integer [m]: a
    negative bound counts from the end and both clamp to the list. *)
Definition slice_to {A} (l : list A) (m : Z) : list A :=
  if bool_decide (0 ≤ m)%Z then take (Z.to_nat m) l
  else take (length l - Z.to_nat (- m)) l.

Definition slice_from {A} (l : list A) (m : Z) : list A :=
  if bool_decide (0 ≤ m)%Z then drop (Z.to_nat m) l
  else drop (length l - Z.to_nat (- m)) l.

(** A generator object: where its code stands and its local variables.
    - [GenExpr pending]: the generator expression
      [(item.text for item in translations)], with the texts not yet given;
    - [GoogleAPI_frame]: the body of
      [GoogleAPITranslatorService.translate_strings]; [yielding] is [None]
      at the test of the [while], and [Some pending] inside the
      [yield from], with the texts of the response not yet given;
    - [Amazon_frame]: the [for] loop of
      [AmazonTranslateTranslatorService.translate_strings], with the items
      still to visit. *)
Inductive generator : Type :=
  | GenExpr (pending : list string)
  | GoogleAPI_frame (self : instance) (strings : list string)
      (target_language source_language : string)
      (yielding : option (list string))
  | Amazon_frame (self : instance) (strings : list string)
      (target_language source_language : string).

(** One transition of a generator: it yields a value, moves on inside its
    own code, or returns. *)
Inductive step : Type :=
  | Yield (v : string) (g : generator)
  | Continue (g : generator)
  | StopIteration.

Definition gen_step (env : environment) (g : generator) : prog step :=
  match g with
  | GenExpr [] => mret StopIteration
  | GenExpr (text :: pending) => mret (Yield text (GenExpr pending))
  | GoogleAPI_frame self strings tgt src None =>
      match strings with
      | [] => mret StopIteration
      | _ :: _ =>
          _ ← get_service self;
          m ← get_max_segments self;
          translations ←
            call_provider (TranslationsList src tgt (slice_to strings m))
              Texts
              (λ h, translations_list env h src tgt (slice_to strings m));
          mret (Continue (GoogleAPI_frame self strings tgt src
                            (Some translations)))
      end
  | GoogleAPI_frame self strings tgt src (Some (text :: pending)) =>
      mret (Yield text (GoogleAPI_frame self strings tgt src (Some pending)))
  | GoogleAPI_frame self strings tgt src (Some []) =>
      m ← get_max_segments self;
      mret (Continue (GoogleAPI_frame self (slice_from strings m) tgt src None))
  | Amazon_frame self [] tgt src => mret StopIteration
  | Amazon_frame self (text :: strings) tgt src =>
      translated ← translate_string env self text tgt src;
      mret (Yield translated (Amazon_frame self strings tgt src))
  end.

(** [BaseTranslatorService.translate_strings]: no [yield] in its body, so
    the call itself raises. *)
Definition BaseTranslatorService_translate_strings (env : environment)
    (self : instance) (strings : list string)
    (target_language source_language : string) : prog generator :=
  must_be_overridden "translate_strings".

(** [GoogleTranslatorService.translate_strings]: a plain function, which
    calls the provider and returns a generator expression over the answer. *)
Definition GoogleTranslatorService_translate_strings (env : environment)
    (self : instance) (strings : list string)
    (target_language source_language : string) : prog generator :=
  _ ← get_service self;
  translations ←
    call_provider
      (GoogletransTranslateMany strings target_language source_language)
      Texts
      (λ h, googletrans_translate_many env h strings
              target_language source_language);
  mret (GenExpr translations).

(** [GoogleAPITranslatorService.translate_strings] and
    [AmazonTranslateTranslatorService.translate_strings]: generator
    functions, whose call only makes the generator. *)
Definition GoogleAPITranslatorService_translate_strings (env : environment)
    (self : instance) (strings : list string)
    (target_language source_language : string) : prog generator :=
  mret (GoogleAPI_frame self strings target_language source_language None).

Definition AmazonTranslateTranslatorService_translate_strings
    (env : environment) (self : instance) (strings : list string)
    (target_language source_language : string) : prog generator :=
  mret (Amazon_frame self strings target_language source_language).

(** [self.translate_strings(strings, target_language, source_language)] *)
Definition translate_strings (env : environment) (self : instance)
    (strings : list string) (target_language source_language : string)
  : prog generator :=
  match resolve (inst_class self) m_translate_strings with
  | Some BaseTranslatorService =>
      BaseTranslatorService_translate_strings env self
        strings target_language source_language
  | Some GoogleTranslatorService =>
      GoogleTranslatorService_translate_strings env self
        strings target_language source_language
  | Some GoogleAPITranslatorService =>
      GoogleAPITranslatorService_translate_strings env self
        strings target_language source_language
  | Some AmazonTranslateTranslatorService =>
      AmazonTranslateTranslatorService_translate_strings env self
        strings target_language source_language
  | _ => attribute_error self "translate_strings"
  end.

(** [next(g)], given at most [fuel] transitions: [None] when they did not
    reach a [yield] or the end. *)
Fixpoint next (env : environment) (fuel : nat) (g : generator)
  : prog (option step) :=
  match fuel with
  | O => mret None
  | S fuel =>
      s ← gen_step env g;
      match s with
      | Continue g' => next env fuel g'
      | _ => mret (Some s)
      end
  end.

(** [list(g)], given at most [fuel] transitions: every value the generator
    yields, each recorded in the history when it is handed over; [None]
    when the transitions did not reach the end. *)
Fixpoint consume (env : environment) (fuel : nat) (g : generator)
  : prog (option (list string)) :=
  match fuel with
  | O => mret None
  | S fuel =>
      s ← gen_step env g;
      match s with
      | Yield v g' =>
          _ ← emit (Yielded v);
          rest ← consume env fuel g';
          mret (cons v <$> rest)
      | Continue g' => consume env fuel g'
      | StopIteration => mret (Some [])
      end
  end.

(** [list(self.translate_strings(strings, target_language, source_language))] *)
Definition translate_all (env : environment) (fuel : nat) (self : instance)
    (strings : list string) (target_language source_language : string)
  : prog (option (list string)) :=
  g ← translate_strings env self strings target_language source_language;
  consume env fuel g.

(** * Vocabulary of the specification *)

(** ** The resolver *)

(** The two messages of [get_translator], with the value they name. *)
Definition could_not_import_message (translator : string) : string :=
  "Could not import the translator service '" +:+ translator
  +:+ "' specified in settings.AUTOTRANSLATE_TRANSLATOR_SERVICE.".

Definition does_not_subclass_message (translator : string) : string :=
  "The translator service '" +:+ translator
  +:+ "' specified in settings.AUTOTRANSLATE_TRANSLATOR_SERVICE does not subclass BaseTranslatorService.".

(** The setting names the class [c]: it holds the class itself, or a dotted
    path that imports to it. *)
Definition names_class (env : environment) (c : pyclass) : Prop :=
  settings env !! SERVICE_SETTING = Some (VClass c) ∨
  ∃ path, settings env !! SERVICE_SETTING = Some (VStr path) ∧
          import_table env !! path = Some (VClass c).

(** ** Histories *)

(** The provider calls of a history, the lists of texts they returned, and
    the values handed to the consumer, each in the order they happened. *)
Definition requests (t : list event) : list request :=
  omap (λ e, match e with Called rq _ => Some rq | _ => None end) t.

Definition answers (t : list event) : list (list string) :=
  omap (λ e, match e with Called _ (Texts l) => Some l | _ => None end) t.

Definition yields (t : list event) : list string :=
  omap (λ e, match e with Yielded s => Some s | _ => None end) t.

(** No client was built and no provider was called. *)
Definition no_provider_contact (t : list event) : Prop :=
  Forall (λ e, match e with
               | ClientBuilt _ | Called _ _ => False
               | _ => True
               end) t.

(** ** Backends *)

(** The three classes of [services.py] that override both methods. *)
Definition concrete_backends : list pyclass :=
  [GoogleTranslatorService; GoogleAPITranslatorService;
   AmazonTranslateTranslatorService].

(** An instance of a concrete backend that can translate: the client is
    there, and for the batch-limited backend the maximum segment count is
    at least one.  The constructor does not check the count: it keeps zero
    and negative values as well, and an instance built with one of them is
    not [ready]. *)
Definition ready (self : instance) : Prop :=
  inst_class self ∈ concrete_backends ∧
  is_Some (service self) ∧
  (inst_class self = GoogleAPITranslatorService →
   ∃ M, max_segments self = Some M ∧ (1 ≤ M)%Z).

(** The instance a per-item frame calls back into is of a concrete
    backend. *)
Definition frame_ok (g : generator) : Prop :=
  match g with
  | Amazon_frame self _ _ _ => inst_class self ∈ concrete_backends
  | _ => True
  end.

(** The outcome is the error of an abstract method. *)
Definition not_implemented {A} (r : result A) : Prop :=
  ∃ msg, r = Raise (NotImplementedError msg).

(** ** Chunks *)

(** [ceil(n / m)] *)
Definition ceil_div (n m : nat) : nat := (n + m - 1) / m.

(** The consecutive slices of [l] of [m] items, the last one shorter when
    [m] does not divide the length. *)
Fixpoint chunks_upto {A} (fuel m : nat) (l : list A) : list (list A) :=
  match fuel, l with
  | S fuel, _ :: _ => take m l :: chunks_upto fuel m (drop m l)
  | _, _ => []
  end.

Definition chunks {A} (m : nat) (l : list A) : list (list A) :=
  chunks_upto (length l) m l.

(** ** Providers that answer *)

(** Every call of the paid API is answered, and the answer to [q]
    satisfies [P q]. *)
Definition translations_list_answers (P : list string → list string → Prop)
    (env : environment) (tgt src : string) : Prop :=
  ∀ h q, ∃ l, translations_list env h src tgt q = Reply l ∧ P q l.

(** Every provider call returns one translation per submitted item, in the
    order of the request: item and translation are related by [R]. *)
Definition providers_aligned (R : string → string → Prop)
    (env : environment) (tgt src : string) : Prop :=
  (∀ h q, ∃ l, googletrans_translate_many env h q tgt src = Reply l
               ∧ Forall2 R q l) ∧
  translations_list_answers (Forall2 R) env tgt src ∧
  (∀ h x, ∃ y, translate_text env h x src tgt = Reply y ∧ R x y).

(** The history of a per-item run: for each item its call, then the text
    handed over. *)
Definition per_item_trace (tgt src : string) (strings out : list string)
  : list event :=
  concat (zip_with
            (λ x y, [Called (TranslateText x src tgt) (OneText y); Yielded y])
            strings out).

(** The texts a per-item run receives: each item is sent to
    [translate_text] after the history of the calls and hand-overs before
    it; the run stops at the first call that raises. *)
Fixpoint per_item_answers (env : environment) (tgt src : string)
    (strings : list string) (h : list event) : list string :=
  match strings with
  | [] => []
  | x :: strings =>
      match translate_text env h x src tgt with
      | Reply y =>
          y :: per_item_answers env tgt src strings
                 (h ++ [Called (TranslateText x src tgt) (OneText y);
                        Yielded y])
      | Fails _ => []
      end
  end.

(** ** Environments used as examples *)

(** Nothing is configured and nothing is installed. *)
Definition bare_env : environment := {|
  settings := ∅;
  modules := ∅;
  import_table := ∅;
  client_error := λ _, None;
  googletrans_translate := λ _ text _ _, Reply ("tr:" +:+ text);
  googletrans_translate_many := λ _ texts _ _,
    Reply ((λ x, "tr:" +:+ x) <$> texts);
  translations_list := λ _ _ _ q, Reply ((λ x, "tr:" +:+ x) <$> q);
  translate_text := λ _ text _ _, Reply ("tr:" +:+ text);
|}.

(** The same providers with every package installed and no setting. *)
Definition installed_env : environment := {|
  settings := ∅;
  modules := {[ "googletrans"; "googleapiclient.discovery"; "boto3" ]};
  import_table :=
    {[ "autotranslate.services.GoogleAPITranslatorService"
         := VClass GoogleAPITranslatorService;
       "builtins.object" := VClass object_ ]};
  client_error := client_error bare_env;
  googletrans_translate := googletrans_translate bare_env;
  googletrans_translate_many := googletrans_translate_many bare_env;
  translations_list := translations_list bare_env;
  translate_text := translate_text bare_env;
|}.

(** [installed_env] with the key set, and the service setting as given. *)
Definition full_env (service_setting : option pyval) : environment := {|
  settings :=
    match service_setting with
    | Some v => {[ "GOOGLE_TRANSLATE_KEY" := VStr "secret";
                   SERVICE_SETTING := v ]}
    | None => {[ "GOOGLE_TRANSLATE_KEY" := VStr "secret" ]}
    end;
  modules := modules installed_env;
  import_table := import_table installed_env;
  client_error := client_error bare_env;
  googletrans_translate := googletrans_translate bare_env;
  googletrans_translate_many := googletrans_translate_many bare_env;
  translations_list := translations_list bare_env;
  translate_text := translate_text bare_env;
|}.

(** What the example providers return for an item. *)
Definition marked (x y : string) : Prop := y = "tr:" +:+ x.

(** Instances as the constructors leave them in [full_env]. *)
Definition a_Google : instance :=
  set_service (blank GoogleTranslatorService) GoogletransTranslator.

Definition a_GoogleAPI (m : Z) : instance :=
  set_translated_strings
    (set_max_segments
       (set_service
          (set_developer_key (blank GoogleAPITranslatorService) (VStr "secret"))
          (GoogleApiResource (VStr "secret")))
       m)
    [].

Definition an_Amazon : instance :=
  set_service (blank AmazonTranslateTranslatorService) BotoTranslateClient.

(** ** Vocabulary of the further properties *)

(** After the resolution of a dotted path the setting stands for [v]: it
    holds [v], which is not a string, or it holds a path that imports to
    [v]. *)
Definition resolves_to (env : environment) (v : pyval) : Prop :=
  (settings env !! SERVICE_SETTING = Some v ∧ ∀ path, v ≠ VStr path) ∨
  ∃ path, settings env !! SERVICE_SETTING = Some (VStr path) ∧
          import_table env !! path = Some v.

(** What the constructor of a concrete backend imports, the client it
    builds, and the request its [translate_string] makes. *)
Definition backend_module (c : pyclass) : string :=
  match c with
  | GoogleTranslatorService => "googletrans"
  | GoogleAPITranslatorService => "googleapiclient.discovery"
  | _ => "boto3"
  end.

Definition backend_client (env : environment) (c : pyclass) : client :=
  match c with
  | GoogleTranslatorService => GoogletransTranslator
  | GoogleAPITranslatorService =>
      GoogleApiResource (getattr_settings env "GOOGLE_TRANSLATE_KEY" VNone)
  | _ => BotoTranslateClient
  end.

Definition backend_request (c : pyclass) (text tgt src : string) : request :=
  match c with
  | GoogleTranslatorService => GoogletransTranslate text tgt src
  | GoogleAPITranslatorService => TranslationsList src tgt [text]
  | _ => TranslateText text src tgt
  end.

(** An event a run of the batch-limited generator may add when its limit is
    [m]: a text handed over, or a call of the paid API for the given
    languages with at most [m] items. *)
Definition within_batch (tgt src : string) (m : nat) (e : event) : Prop :=
  match e with
  | Yielded _ => True
  | Called (TranslationsList source target q) _ =>
      source = src ∧ target = tgt ∧ length q ≤ m
  | _ => False
  end.

(** The single texts the calls of a history returned, in order. *)
Definition one_texts (t : list event) : list string :=
  omap (λ e, match e with Called _ (OneText y) => Some y | _ => None end) t.

(** A class declared outside the package, unrelated to the translators. *)
Definition Unrelated : pyclass := Subclass "myapp.utils" "Unrelated" object_.

(** Every package installed and the key set; the providers answer as in
    [bare_env] as long as fewer than [n] calls were made, and raise from
    then on. *)
Definition flaky_env (n : nat) : environment := {|
  settings := settings (full_env None);
  modules := modules installed_env;
  import_table := import_table installed_env;
  client_error := client_error bare_env;
  googletrans_translate := googletrans_translate bare_env;
  googletrans_translate_many := googletrans_translate_many bare_env;
  translations_list := λ h source target q,
    if bool_decide (length (requests h) < n)
    then translations_list bare_env h source target q
    else Fails "quota exceeded";
  translate_text := λ h text source target,
    if bool_decide (length (requests h) < n)
    then translate_text bare_env h text source target
    else Fails "quota exceeded";
|}.

(** In a state of the batch-limited generator, what of the input is still
    to be requested and what of the last answer is still to be handed
    over. *)
Definition remaining_input (m : nat) (strings : list string)
    (yielding : option (list string)) : list string :=
  match yielding with None => strings | Some _ => drop m strings end.

Definition pending_texts (yielding : option (list string)) : list string :=
  default [] yielding.

(** * Properties *)

(** ** Running programs *)

Lemma run_ret {A} (a : A) h : (mret a : prog A) h = ([], Ok a).
Proof. reflexivity. Qed.

Lemma run_bind {A B} (m : prog A) (f : A → prog B) h :
  (m ≫= f) h =
  match m h with
  | (t, Ok a) => match f a (h ++ t) with (t', r) => (t ++ t', r) end
  | (t, Raise e) => (t, Raise e)
  end.
Proof. reflexivity. Qed.

Lemma run_bind_ret {A B} (a : A) (f : A → prog B) h :
  (mret a ≫= f) h = f a h.
Proof.
  rewrite run_bind, run_ret, app_nil_r. simpl. by destruct (f a h).
Qed.

(** ** The class hierarchy *)

Lemma mro_class_base c :
  mro c = c :: match class_base c with Some b => mro b | None => [] end.
Proof. by destruct c. Qed.

Lemma mro_self c : c ∈ mro c.
Proof. destruct c; simpl; apply elem_of_cons; auto. Qed.

Lemma mro_object c : object_ ∈ mro c.
Proof. induction c; simpl; rewrite ?elem_of_cons; auto 6. Qed.

Lemma subclass_of_refl c : subclass_of c c = true.
Proof. apply bool_decide_eq_true, mro_self. Qed.

Lemma mro_Base_inv c :
  c ∈ mro BaseTranslatorService ↔ c = BaseTranslatorService ∨ c = object_.
Proof. simpl. rewrite !elem_of_cons, elem_of_nil. tauto. Qed.

(** The test [get_translator] makes, [issubclass(BaseTranslatorService, c)],
    holds of two classes only. *)
Lemma Base_subclass_of c :
  subclass_of BaseTranslatorService c = true
  ↔ c = BaseTranslatorService ∨ c = object_.
Proof. unfold subclass_of. rewrite bool_decide_eq_true. apply mro_Base_inv. Qed.

Lemma proper_subclass_not_above c :
  subclass_of c BaseTranslatorService = true → c ≠ BaseTranslatorService →
  subclass_of BaseTranslatorService c = false.
Proof.
  intros Hsub Hne. apply not_true_is_false. rewrite Base_subclass_of.
  intros [->| ->]; [done|]. by vm_compute in Hsub.
Qed.

(** ** Messages of the resolver *)

Lemma format_could_not_import v :
  format
    (gettext "Could not import the translator service '{translator}' specified in {setting}.")
    [("translator", v); ("setting", "settings." +:+ SERVICE_SETTING)]
  = Ok (could_not_import_message v).
Proof. reflexivity. Qed.

Lemma format_does_not_subclass v :
  format
    (gettext "The translator service '{translator}' specified in {setting} does not subclass BaseTranslatorService.")
    [("translator", v); ("setting", "settings." +:+ SERVICE_SETTING)]
  = Ok (does_not_subclass_message v).
Proof. reflexivity. Qed.

(** ** The resolver *)

Lemma validate_class env c h :
  validate_and_call env (VClass c) h =
  if subclass_of BaseTranslatorService c then construct env c h
  else ([], Raise (ImproperlyConfigured
                     (does_not_subclass_message (class_str c)))).
Proof.
  unfold validate_and_call. rewrite run_bind. simpl.
  destruct (subclass_of BaseTranslatorService c); simpl.
  - by destruct (construct env c (h ++ [])) eqn:E; rewrite app_nil_r in E; rewrite E.
  - reflexivity.
Qed.

Lemma validate_None env h :
  validate_and_call env VNone h =
  ([], Raise (ImproperlyConfigured (does_not_subclass_message "None"))).
Proof. reflexivity. Qed.

Lemma resolve_path_class env c h :
  resolve_path env (VClass c) h = ([], Ok (VClass c)).
Proof. reflexivity. Qed.

Lemma resolve_path_found env path v h :
  import_table env !! path = Some v →
  resolve_path env (VStr path) h = ([], Ok v).
Proof.
  intros Hp. unfold resolve_path, try_except, import_string. by rewrite Hp.
Qed.

Lemma resolve_path_missing env path h :
  import_table env !! path = None →
  resolve_path env (VStr path) h =
  ([], Raise (ImproperlyConfigured (could_not_import_message path))).
Proof.
  intros Hp. unfold resolve_path, try_except, import_string. by rewrite Hp.
Qed.

Lemma getattr_settings_Some env name d v :
  settings env !! name = Some v → getattr_settings env name d = v.
Proof. intros H. unfold getattr_settings. by rewrite H. Qed.

Lemma getattr_settings_None env name d :
  settings env !! name = None → getattr_settings env name d = d.
Proof. intros H. unfold getattr_settings. by rewrite H. Qed.

Lemma get_translator_class env c h :
  names_class env c →
  get_translator env h = validate_and_call env (VClass c) h.
Proof.
  intros [Hs | (path & Hs & Hp)]; unfold get_translator;
    rewrite (getattr_settings_Some _ _ _ _ Hs), run_bind.
  - rewrite resolve_path_class, app_nil_r.
    by destruct (validate_and_call env (VClass c) h).
  - rewrite (resolve_path_found _ _ _ _ Hp), app_nil_r.
    by destruct (validate_and_call env (VClass c) h).
Qed.

Lemma get_translator_absent env h :
  settings env !! SERVICE_SETTING = None →
  get_translator env h =
  validate_and_call env (VClass GoogleTranslatorService) h.
Proof.
  intros Hs. unfold get_translator.
  rewrite (getattr_settings_None _ _ _ Hs), run_bind.
  rewrite resolve_path_class, app_nil_r.
  by destruct (validate_and_call env _ h).
Qed.

(** C1 (not met by the code): a setting that names a class derived from
    [BaseTranslatorService], the class itself or a dotted path to it, does
    not give an instance of that class: whenever the class is not
    [BaseTranslatorService] itself, [get_translator] raises
    [ImproperlyConfigured], since it tests
    [issubclass(BaseTranslatorService, translator)]. *)
Theorem get_translator_rejects_backends env c h :
  names_class env c →
  subclass_of c BaseTranslatorService = true →
  c ≠ BaseTranslatorService →
  get_translator env h =
  ([], Raise (ImproperlyConfigured (does_not_subclass_message (class_str c)))).
Proof.
  intros Hn Hsub Hne.
  rewrite (get_translator_class _ _ _ Hn), validate_class.
  by rewrite (proper_subclass_not_above _ Hsub Hne).
Qed.

(** C7 (not met by the code): with the setting absent the default,
    [GoogleTranslatorService], is put to the same test and refused: the
    call raises [ImproperlyConfigured] and returns no instance. *)
Theorem get_translator_default_rejected env h :
  settings env !! SERVICE_SETTING = None →
  get_translator env h =
  ([], Raise (ImproperlyConfigured
     "The translator service '<class 'autotranslate.services.GoogleTranslatorService'>' specified in settings.AUTOTRANSLATE_TRANSLATOR_SERVICE does not subclass BaseTranslatorService.")).
Proof.
  intros Hs. by rewrite (get_translator_absent _ _ Hs), validate_class.
Qed.

(** C2 (not met by the code): [object] does not derive from
    [BaseTranslatorService] and has neither translation method, yet a
    setting naming it passes the test: [get_translator] raises nothing and
    returns [object()]. *)
Theorem get_translator_accepts_object env h :
  names_class env object_ →
  subclass_of object_ BaseTranslatorService = false ∧
  resolve object_ m_translate_string = None ∧
  resolve object_ m_translate_strings = None ∧
  get_translator env h = ([], Ok (blank object_)).
Proof.
  intros Hn. repeat split; try reflexivity.
  by rewrite (get_translator_class _ _ _ Hn), validate_class.
Qed.


Lemma get_translator_rejects_unrelated env c h :
  names_class env c →
  subclass_of c BaseTranslatorService = false → c ≠ object_ →
  get_translator env h =
  ([], Raise (ImproperlyConfigured (does_not_subclass_message (class_str c)))).
Proof.
  intros Hn Hsub Hne.
  rewrite (get_translator_class _ _ _ Hn), validate_class.
  destruct (subclass_of BaseTranslatorService c) eqn:E; [|done].
  apply Base_subclass_of in E as [-> | ->]; [|done].
  by rewrite subclass_of_refl in Hsub.
Qed.

(** A value that is neither [None], a string nor a class makes the test
    itself raise. *)
Lemma get_translator_not_a_class env repr truth h :
  settings env !! SERVICE_SETTING = Some (VObj repr truth) →
  get_translator env h =
  ([], Raise (TypeError
     "issubclass() arg 2 must be a class, a tuple of classes, or a union")).
Proof.
  intros Hs. unfold get_translator.
  by rewrite (getattr_settings_Some _ _ _ _ Hs).
Qed.

(** What the test lets through: the base class itself. *)
Lemma get_translator_Base env h :
  names_class env BaseTranslatorService →
  get_translator env h = ([], Ok (blank BaseTranslatorService)).
Proof.
  intros Hn. by rewrite (get_translator_class _ _ _ Hn), validate_class.
Qed.

(** ** Constructors *)

Lemma import_module_found env module h :
  module ∈ modules env →
  import_module env module h = ([ImportStmt module true], Ok tt).
Proof.
  intros H. unfold import_module. by rewrite bool_decide_eq_true_2.
Qed.

Lemma import_module_missing env module h :
  module ∉ modules env →
  import_module env module h =
  ([ImportStmt module false],
   Raise (ImportError
            ("No module named '" +:+ missing_module env module +:+ "'"))).
Proof.
  intros H. unfold import_module. by rewrite bool_decide_eq_false_2.
Qed.

Example missing_module_names_the_package :
  missing_module bare_env "googleapiclient.discovery" = "googleapiclient".
Proof. reflexivity. Qed.

Example format_lone_brace :
  format "{" [] = Raise (ValueError "Single '{' encountered in format string")
  ∧ format "{name" []
    = Raise (ValueError "expected '}' before end of string").
Proof. split; reflexivity. Qed.

Lemma missing_module_undotted env module :
  dotted_prefixes module = [module] → missing_module env module = module.
Proof.
  intros Hp. unfold missing_module. rewrite Hp. simpl.
  by destruct (negb _).
Qed.

(** C6, as amended: when the Google API client package imports and
    [GOOGLE_TRANSLATE_KEY] is absent or falsy, constructing
    [GoogleAPITranslatorService], with any maximum segment count or through
    the call without arguments, raises [ImproperlyConfigured] with a message
    that names the setting and the service; all that has happened by then is
    the import: no client was built and no provider called. *)
Theorem GoogleAPI_init_requires_key env M h :
  "googleapiclient.discovery" ∈ modules env →
  truthy (getattr_settings env "GOOGLE_TRANSLATE_KEY" VNone) = false →
  construct_GoogleAPI env M h =
    ([ImportStmt "googleapiclient.discovery" true],
     Raise (ImproperlyConfigured
       "`GOOGLE_TRANSLATE_KEY` is not configured, it is required by `GoogleAPITranslatorService`")) ∧
  construct env GoogleAPITranslatorService h =
    ([ImportStmt "googleapiclient.discovery" true],
     Raise (ImproperlyConfigured
       "`GOOGLE_TRANSLATE_KEY` is not configured, it is required by `GoogleAPITranslatorService`")) ∧
  no_provider_contact [ImportStmt "googleapiclient.discovery" true].
Proof.
  intros Hm Hk.
  assert (∀ m, construct_GoogleAPI env m h =
    ([ImportStmt "googleapiclient.discovery" true],
     Raise (ImproperlyConfigured
       "`GOOGLE_TRANSLATE_KEY` is not configured, it is required by `GoogleAPITranslatorService`"))) as Hc.
  { intros m. unfold construct_GoogleAPI, GoogleAPITranslatorService_init,
      try_except.
    rewrite run_bind, (import_module_found _ _ _ Hm), Hk. reflexivity. }
  split; [apply Hc|]. split; [apply (Hc 128%Z)|].
  by repeat constructor.
Qed.

(** The gate that comes first: without the package the constructor raises
    [ImportError], whatever the key. *)
Lemma GoogleAPI_init_requires_package env M h :
  "googleapiclient.discovery" ∉ modules env →
  construct_GoogleAPI env M h =
  ([ImportStmt "googleapiclient.discovery" false],
   Raise (ImportError
     "`GoogleAPITranslatorService` requires the `google-api-python-client` package.")).
Proof.
  intros Hm. unfold construct_GoogleAPI, GoogleAPITranslatorService_init,
    try_except.
  by rewrite run_bind, (import_module_missing _ _ _ Hm).
Qed.

(** With the package and a key the constructor builds the client and keeps
    the maximum segment count. *)
Lemma GoogleAPI_init_succeeds env M h key :
  "googleapiclient.discovery" ∈ modules env →
  settings env !! "GOOGLE_TRANSLATE_KEY" = Some key → truthy key = true →
  client_error env (GoogleApiResource key) = None →
  ∃ self,
    construct_GoogleAPI env M h =
      ([ImportStmt "googleapiclient.discovery" true;
        ClientBuilt (GoogleApiResource key)], Ok self) ∧
    inst_class self = GoogleAPITranslatorService ∧
    service self = Some (GoogleApiResource key) ∧
    max_segments self = Some M.
Proof.
  intros Hm Hs Hk Hc. eexists.
  unfold construct_GoogleAPI, GoogleAPITranslatorService_init, try_except.
  rewrite run_bind, (import_module_found _ _ _ Hm).
  rewrite (getattr_settings_Some _ _ _ _ Hs), Hk. simpl.
  unfold new_client. rewrite run_bind. simpl. rewrite Hc. simpl.
  split; [reflexivity|]. done.
Qed.

(** C9: when [boto3] does not import, constructing
    [AmazonTranslateTranslatorService] raises [ImportError] with a message
    that names the service and the package, at the import, before a client
    is built or a provider called. *)
Theorem Amazon_init_requires_boto3 env h :
  "boto3" ∉ modules env →
  construct env AmazonTranslateTranslatorService h =
    ([ImportStmt "boto3" false],
     Raise (ImportError
       "`AmazonTranslateTranslatorService` requires the `boto3` package")) ∧
  no_provider_contact [ImportStmt "boto3" false].
Proof.
  intros Hm. split; [|by repeat constructor].
  unfold construct. simpl.
  unfold AmazonTranslateTranslatorService_init, try_except.
  by rewrite run_bind, (import_module_missing _ _ _ Hm).
Qed.

Lemma construct_ready env c h t self :
  c ∈ concrete_backends →
  construct env c h = (t, Ok self) → ready self.
Proof.
  unfold concrete_backends. rewrite !elem_of_cons, elem_of_nil.
  intros [-> | [-> | [-> | []]]]; unfold construct; simpl.
  - unfold GoogleTranslatorService_init, import_module, new_client.
    rewrite !run_bind. case_bool_decide; simpl; [|done].
    destruct (client_error env _); simpl; [done|].
    intros [= <- <-]. split; [|split]; simpl; [|by eexists|done].
    unfold concrete_backends. rewrite !elem_of_cons. auto.
  - unfold GoogleAPITranslatorService_init, try_except, import_module,
      new_client.
    rewrite !run_bind. case_bool_decide; simpl; [|done].
    destruct (truthy _); simpl; [|done].
    destruct (client_error env _); simpl; [done|].
    intros [= <- <-]. split; [|split]; simpl; [|by eexists|].
    + unfold concrete_backends. rewrite !elem_of_cons. auto.
    + intros _. exists 128%Z. split; [done|lia].
  - unfold AmazonTranslateTranslatorService_init, try_except, import_module,
      new_client.
    rewrite !run_bind. case_bool_decide; simpl; [|done].
    destruct (client_error env _); simpl; [done|].
    intros [= <- <-]. split; [|split]; simpl; [|by eexists|done].
    unfold concrete_backends. rewrite !elem_of_cons. auto.
Qed.

Lemma construct_GoogleAPI_ready env M h t self :
  (1 ≤ M)%Z →
  construct_GoogleAPI env M h = (t, Ok self) → ready self.
Proof.
  intros HM. unfold construct_GoogleAPI, GoogleAPITranslatorService_init,
    try_except, import_module, new_client.
  rewrite !run_bind. case_bool_decide; simpl; [|done].
  destruct (truthy _); simpl; [|done].
  destruct (client_error env _); simpl; [done|].
  intros [= <- <-]. split; [|split]; simpl; [|by eexists|].
  - unfold concrete_backends. rewrite !elem_of_cons. auto.
  - intros _. by exists M.
Qed.

(** ** Generators *)

(** One transition of [list(g)]. *)
Lemma consume_S env fuel g h :
  consume env (S fuel) g h =
  match gen_step env g h with
  | (t1, Ok (Yield v g')) =>
      match consume env fuel g' (h ++ t1 ++ [Yielded v]) with
      | (t2, Ok rest) => (t1 ++ Yielded v :: t2, Ok (cons v <$> rest))
      | (t2, Raise e) => (t1 ++ Yielded v :: t2, Raise e)
      end
  | (t1, Ok (Continue g')) =>
      match consume env fuel g' (h ++ t1) with
      | (t2, r) => (t1 ++ t2, r)
      end
  | (t1, Ok StopIteration) => (t1, Ok (Some []))
  | (t1, Raise e) => (t1, Raise e)
  end.
Proof.
  simpl. rewrite run_bind.
  destruct (gen_step env g h) as [t1 [[v g'|g'|]|e]]; try reflexivity.
  - rewrite !run_bind. simpl. rewrite <- (assoc_L (++) h t1 [Yielded v]).
    rewrite run_bind.
    destruct (consume env fuel g' _) as [t2 [rest|e]]; simpl;
      by rewrite ?app_nil_r.
  - rewrite run_ret. by rewrite app_nil_r.
Qed.

(** More transitions do not change a run that reached the end. *)
Lemma consume_mono env fuel fuel' g h t out :
  consume env fuel g h = (t, Ok (Some out)) → fuel ≤ fuel' →
  consume env fuel' g h = (t, Ok (Some out)).
Proof.
  revert fuel' g h t out.
  induction fuel as [|fuel IH]; intros fuel' g h t out; [done|].
  intros Hrun Hle. destruct fuel' as [|fuel']; [lia|].
  rewrite consume_S in Hrun |- *.
  destruct (gen_step env g h) as [t1 [[v g'|g'|]|e]]; try done.
  - destruct (consume env fuel g' _) as [t2 [[rest|]|e]] eqn:E; try done.
    by rewrite (IH fuel' _ _ _ _ E) by lia.
  - destruct (consume env fuel g' _) as [t2 r] eqn:E.
    injection Hrun as <- ->.
    by rewrite (IH fuel' _ _ _ _ E) by lia.
Qed.

(** A generator expression over texts already fetched only hands them
    over. *)
Lemma consume_GenExpr env l fuel h :
  length l < fuel →
  consume env fuel (GenExpr l) h = (Yielded <$> l, Ok (Some l)).
Proof.
  revert fuel h. induction l as [|x l IH]; intros [|fuel] h Hlt;
    simpl in Hlt; try lia; rewrite consume_S; simpl; [done|].
  by rewrite IH by lia.
Qed.

Lemma requests_Yielded l : requests (Yielded <$> l) = [].
Proof. by induction l. Qed.

Lemma answers_Yielded l : answers (Yielded <$> l) = [].
Proof. by induction l. Qed.

Lemma yields_Yielded l : yields (Yielded <$> l) = l.
Proof. induction l; simpl; [done|]. unfold yields in *. simpl. by f_equal. Qed.

Lemma consume_GenExpr_quiet env l fuel h :
  requests (consume env fuel (GenExpr l) h).1 = [].
Proof.
  revert l h. induction fuel as [|fuel IH]; intros l h; [done|].
  rewrite consume_S. destruct l as [|x l]; simpl; [done|].
  specialize (IH l (h ++ [Yielded x])).
  by destruct (consume env fuel (GenExpr l) _) as [t2 [rest|e]].
Qed.

(** [next] on a generator expression. *)
Lemma next_GenExpr env fuel l h :
  next env (S fuel) (GenExpr l) h =
  ([], Ok (Some match l with
                | [] => StopIteration
                | text :: pending => Yield text (GenExpr pending)
                end)).
Proof. by destruct l. Qed.

Lemma Google_translate_strings_call env self strings tgt src h :
  inst_class self = GoogleTranslatorService →
  is_Some (service self) →
  translate_strings env self strings tgt src h =
    match googletrans_translate_many env h strings tgt src with
    | Reply l =>
        ([Called (GoogletransTranslateMany strings tgt src) (Texts l)],
         Ok (GenExpr l))
    | Fails w =>
        ([Called (GoogletransTranslateMany strings tgt src) (Failed w)],
         Raise (ProviderError w))
    end.
Proof.
  intros Hc [svc Hs]. unfold translate_strings. rewrite Hc. simpl.
  unfold GoogleTranslatorService_translate_strings, get_service.
  rewrite Hs, run_bind_ret, run_bind. unfold call_provider.
  by destruct (googletrans_translate_many env h strings tgt src).
Qed.

(** C10: on an instance of [GoogleTranslatorService] the call of
    [translate_strings] itself makes the one provider request, for the whole
    list: if the provider raises, the call raises; otherwise the call
    returns a generator over the texts received, and consuming it, however
    far, calls no provider and hands over exactly those texts. *)
Theorem Google_translate_strings_eager env self strings tgt src h :
  inst_class self = GoogleTranslatorService →
  is_Some (service self) →
  translate_strings env self strings tgt src h =
    match googletrans_translate_many env h strings tgt src with
    | Reply l =>
        ([Called (GoogletransTranslateMany strings tgt src) (Texts l)],
         Ok (GenExpr l))
    | Fails w =>
        ([Called (GoogletransTranslateMany strings tgt src) (Failed w)],
         Raise (ProviderError w))
    end
  ∧ ∀ l h',
      (∀ fuel, requests (consume env fuel (GenExpr l) h').1 = []) ∧
      (∀ fuel, length l < fuel →
         consume env fuel (GenExpr l) h' = (Yielded <$> l, Ok (Some l))).
Proof.
  intros Hc Hs. split.
  - by apply Google_translate_strings_call.
  - intros l h'. split; intros fuel.
    + apply consume_GenExpr_quiet.
    + apply consume_GenExpr.
Qed.

(** ** The per-item backend *)

Lemma Amazon_translate_string env self text tgt src h :
  inst_class self = AmazonTranslateTranslatorService →
  is_Some (service self) →
  translate_string env self text tgt src h =
  match translate_text env h text src tgt with
  | Reply y => ([Called (TranslateText text src tgt) (OneText y)], Ok y)
  | Fails w =>
      ([Called (TranslateText text src tgt) (Failed w)],
       Raise (ProviderError w))
  end.
Proof.
  intros Hc [svc Hs]. unfold translate_string. rewrite Hc. simpl.
  unfold AmazonTranslateTranslatorService_translate_string, get_service.
  by rewrite Hs, run_bind_ret.
Qed.

(** [next] on the per-item generator: one call, on the next item, and its
    text is the value yielded. *)
Lemma next_Amazon env self x strings tgt src fuel h :
  inst_class self = AmazonTranslateTranslatorService →
  is_Some (service self) →
  next env (S fuel) (Amazon_frame self (x :: strings) tgt src) h =
  match translate_text env h x src tgt with
  | Reply y =>
      ([Called (TranslateText x src tgt) (OneText y)],
       Ok (Some (Yield y (Amazon_frame self strings tgt src))))
  | Fails w =>
      ([Called (TranslateText x src tgt) (Failed w)], Raise (ProviderError w))
  end.
Proof.
  intros Hc Hs. cbn [next gen_step]. rewrite !run_bind.
  rewrite (Amazon_translate_string _ _ _ _ _ _ Hc Hs).
  by destruct (translate_text env h x src tgt).
Qed.

Lemma requests_per_item tgt src strings out :
  length out = length strings →
  requests (per_item_trace tgt src strings out)
  = (λ x, TranslateText x src tgt) <$> strings.
Proof.
  revert out. induction strings as [|x strings IH]; intros [|y out] Hl;
    simpl in *; try done.
  unfold requests in *. simpl. f_equal. apply IH. lia.
Qed.

Lemma yields_per_item tgt src strings out :
  length out = length strings →
  yields (per_item_trace tgt src strings out) = out.
Proof.
  revert out. induction strings as [|x strings IH]; intros [|y out] Hl;
    simpl in *; try done.
  unfold yields in *. simpl. f_equal. apply IH. lia.
Qed.


(** ** Chunks *)

Section chunks.
Context {A : Type} (m : nat) (Hm : 1 ≤ m).
Implicit Types l : list A.

Lemma chunks_upto_concat fuel l :
  length l ≤ fuel → concat (chunks_upto fuel m l) = l.
Proof.
  revert l. induction fuel as [|fuel IH]; intros [|x l] Hl;
    simpl in Hl; try done; try lia.
  cbn [chunks_upto concat]. rewrite IH; [apply take_drop|].
  rewrite length_drop. simpl. lia.
Qed.

Lemma chunks_upto_length fuel l :
  length l ≤ fuel → length (chunks_upto fuel m l) = ceil_div (length l) m.
Proof.
  unfold ceil_div. revert l.
  induction fuel as [|fuel IH]; intros [|x l] Hl; simpl in Hl; try lia.
  - simpl. symmetry. apply Nat.div_small. lia.
  - simpl. symmetry. apply Nat.div_small. lia.
  - cbn [chunks_upto length]. rewrite IH by (rewrite length_drop; simpl; lia).
    rewrite length_drop. cbn [length].
    destruct (decide (S (length l) ≤ m)) as [Hle|Hgt].
    + replace (S (length l) - m + m - 1) with (m - 1) by lia.
      rewrite Nat.div_small by lia.
      apply (Nat.div_unique _ _ 1 (length l)); lia.
    + replace (S (length l) + m - 1) with ((S (length l) - m + m - 1) + 1 * m)
        by lia.
      rewrite Nat.div_add by lia. lia.
Qed.

Lemma chunks_upto_lookup fuel l i q :
  chunks_upto fuel m l !! i = Some q → q = take m (drop (i * m) l).
Proof.
  revert l i. induction fuel as [|fuel IH]; intros [|x l] i; try done.
  cbn [chunks_upto]. destruct i as [|i]; simpl.
  - by intros [= <-].
  - intros Hq. apply IH in Hq. rewrite Hq, drop_drop.
    by replace (m + i * m) with (S (m + i * m - 1)) by lia.
Qed.

Lemma chunks_upto_bound fuel l :
  Forall (λ q, length q ≤ m) (chunks_upto fuel m l).
Proof.
  revert l. induction fuel as [|fuel IH]; intros [|x l];
    cbn [chunks_upto]; try by constructor.
  constructor; [|apply IH]. rewrite length_take. lia.
Qed.

Lemma chunks_upto_enough fuel l :
  length l ≤ fuel → chunks_upto fuel m l = chunks m l.
Proof.
  unfold chunks. generalize (le_n (length l)).
  generalize (length l) at 2 4 as fuel'. intros fuel' H1 H2.
  revert fuel' l H1 H2.
  induction fuel as [|fuel IH]; intros [|fuel'] [|x l] H1 H2;
    simpl in H1, H2; try done; try lia.
  cbn [chunks_upto]. f_equal. apply IH; rewrite length_drop; simpl; lia.
Qed.

Lemma chunks_nil : chunks m (@nil A) = [].
Proof. reflexivity. Qed.

Lemma chunks_cons x l :
  chunks m (x :: l) = take m (x :: l) :: chunks m (drop m (x :: l)).
Proof.
  unfold chunks at 1. cbn [length chunks_upto]. f_equal.
  apply chunks_upto_enough. rewrite length_drop. simpl. lia.
Qed.

Lemma chunks_concat l : concat (chunks m l) = l.
Proof. by apply chunks_upto_concat. Qed.

Lemma chunks_length l : length (chunks m l) = ceil_div (length l) m.
Proof. by apply chunks_upto_length. Qed.

Lemma chunks_lookup l i q :
  chunks m l !! i = Some q →
  q = take m (drop (i * m) l) ∧ length q ≤ m.
Proof.
  intros Hq. split; [by eapply chunks_upto_lookup|].
  eapply (proj1 (Forall_lookup _ _) (chunks_upto_bound _ l)), Hq.
Qed.
End chunks.

Lemma Forall2_concat {A B} (R : A → B → Prop) ls ks :
  Forall2 (Forall2 R) ls ks → Forall2 R (concat ls) (concat ks).
Proof. induction 1; simpl; [constructor|by apply Forall2_app]. Qed.

(** ** Histories *)

Lemma requests_app t1 t2 : requests (t1 ++ t2) = requests t1 ++ requests t2.
Proof. apply omap_app. Qed.

Lemma answers_app t1 t2 : answers (t1 ++ t2) = answers t1 ++ answers t2.
Proof. apply omap_app. Qed.

Lemma yields_app t1 t2 : yields (t1 ++ t2) = yields t1 ++ yields t2.
Proof. apply omap_app. Qed.

(** ** The batch-limited backend *)

Section GoogleAPI_loop.
Context (env : environment) (self : instance) (tgt src : string) (m : nat).
Context (Hservice : is_Some (service self)).
Context (Hmax : max_segments self = Some (Z.of_nat m)) (Hm : 1 ≤ m).

Lemma slice_to_take (l : list string) : slice_to l (Z.of_nat m) = take m l.
Proof.
  unfold slice_to. by rewrite bool_decide_eq_true_2, Nat2Z.id by lia.
Qed.

Lemma slice_from_drop (l : list string) :
  slice_from l (Z.of_nat m) = drop m l.
Proof.
  unfold slice_from. by rewrite bool_decide_eq_true_2, Nat2Z.id by lia.
Qed.

(** The test of the [while] on an empty list: the generator returns. *)
Lemma step_head_nil h :
  gen_step env (GoogleAPI_frame self [] tgt src None) h
  = ([], Ok StopIteration).
Proof. reflexivity. Qed.

(** The test on a list with items: one call, on the first [m] of them. *)
Lemma step_head_cons x strings h :
  gen_step env (GoogleAPI_frame self (x :: strings) tgt src None) h =
  let q := take m (x :: strings) in
  match translations_list env h src tgt q with
  | Reply l =>
      ([Called (TranslationsList src tgt q) (Texts l)],
       Ok (Continue (GoogleAPI_frame self (x :: strings) tgt src (Some l))))
  | Fails w =>
      ([Called (TranslationsList src tgt q) (Failed w)],
       Raise (ProviderError w))
  end.
Proof.
  destruct Hservice as [svc Hs]. cbn [gen_step].
  unfold get_service, get_max_segments. rewrite Hs, Hmax.
  rewrite !run_bind_ret, run_bind, slice_to_take. unfold call_provider.
  by destruct (translations_list env h src tgt _).
Qed.

(** Inside the [yield from]: the next text of the answer. *)
Lemma step_yield text pending strings h :
  gen_step env (GoogleAPI_frame self strings tgt src (Some (text :: pending))) h
  = ([], Ok (Yield text (GoogleAPI_frame self strings tgt src (Some pending)))).
Proof. reflexivity. Qed.

(** The answer is used up: the items sent are dropped. *)
Lemma step_advance strings h :
  gen_step env (GoogleAPI_frame self strings tgt src (Some [])) h
  = ([], Ok (Continue (GoogleAPI_frame self (drop m strings) tgt src None))).
Proof.
  cbn [gen_step]. unfold get_max_segments. rewrite Hmax.
  by rewrite run_bind_ret, slice_from_drop.
Qed.

Lemma consume_yielding pending strings fuel h t out :
  consume env fuel (GoogleAPI_frame self strings tgt src (Some []))
    (h ++ (Yielded <$> pending)) = (t, Ok (Some out)) →
  consume env (length pending + fuel)
    (GoogleAPI_frame self strings tgt src (Some pending)) h
  = ((Yielded <$> pending) ++ t, Ok (Some (pending ++ out))).
Proof.
  revert h. induction pending as [|text pending IH]; intros h Hrun.
  - simpl in *. by rewrite app_nil_r in Hrun.
  - cbn [length Nat.add]. rewrite consume_S, step_yield. cbn [app].
    rewrite (IH (h ++ [Yielded text])); [done|].
    by rewrite <- (assoc_L (++)).
Qed.

(** The whole loop: the calls are the chunks of the input, each answered
    as the provider answers, and the texts handed over are the answers
    one after the other. *)
Lemma consume_GoogleAPI (P : list string → list string → Prop) :
  translations_list_answers P env tgt src →
  ∀ n strings h, length strings ≤ n →
  ∃ fuel t,
    consume env fuel (GoogleAPI_frame self strings tgt src None) h
      = (t, Ok (Some (concat (answers t)))) ∧
    requests t = TranslationsList src tgt <$> chunks m strings ∧
    Forall2 P (chunks m strings) (answers t) ∧
    yields t = concat (answers t).
Proof.
  intros Hp. induction n as [|n IH]; intros [|x strings] h Hlen;
    simpl in Hlen; try lia.
  - exists 1, []. repeat split; constructor.
  - exists 1, []. repeat split; constructor.
  - set (q := take m (x :: strings)).
    destruct (Hp h q) as (l & Hl & HP).
    set (call := Called (TranslationsList src tgt q) (Texts l)).
    destruct (IH (drop m (x :: strings)) ((h ++ [call]) ++ (Yielded <$> l)))
      as (fuel & t & Hrun & Hreq & Hans & Hy).
    { rewrite length_drop. simpl. lia. }
    exists (S (length l + S fuel)), (call :: (Yielded <$> l) ++ t).
    assert (answers (call :: (Yielded <$> l) ++ t) = l :: answers t) as Ha.
    { change (call :: ?t') with ([call] ++ t').
      by rewrite !answers_app, answers_Yielded. }
    rewrite Ha. cbn [concat]. split; [|split; [|split]].
    + rewrite consume_S, step_head_cons. fold q. cbv zeta. rewrite Hl.
      fold call.
      rewrite (consume_yielding l (x :: strings) (S fuel) (h ++ [call]) t
                 (concat (answers t))); [done|].
      rewrite consume_S, step_advance, app_nil_r. by rewrite Hrun.
    + change (call :: ?t') with ([call] ++ t').
      rewrite !requests_app, requests_Yielded, Hreq.
      by rewrite (chunks_cons m) by lia.
    + rewrite (chunks_cons m) by lia. by constructor.
    + change (call :: ?t') with ([call] ++ t').
      by rewrite !yields_app, yields_Yielded, Hy.
Qed.
End GoogleAPI_loop.

Lemma GoogleAPI_translate_strings_lazy env self strings tgt src h :
  inst_class self = GoogleAPITranslatorService →
  translate_strings env self strings tgt src h
  = ([], Ok (GoogleAPI_frame self strings tgt src None)).
Proof. intros Hc. unfold translate_strings. by rewrite Hc. Qed.

(** C3: on an instance of [GoogleAPITranslatorService] with maximum segment
    count [M], at least one, and a provider that answers every call (each
    answer satisfying [P] of its request), consuming
    [translate_strings(strings, ...)] ends and makes exactly
    [ceil(N / M)] provider calls for [N] items; the call number [i] carries
    the items [i * M] up to [(i + 1) * M] of the input, at most [M] of them,
    so that the requests one after the other are the input; the answers
    belong to the requests in order, and the texts handed over are the
    answers one after the other. *)
Theorem GoogleAPI_translate_strings_chunked
    (P : list string → list string → Prop) env self strings tgt src M h :
  inst_class self = GoogleAPITranslatorService →
  is_Some (service self) →
  max_segments self = Some M → (1 ≤ M)%Z →
  translations_list_answers P env tgt src →
  ∃ t out qs,
    (∃ fuel0, ∀ fuel, fuel0 ≤ fuel →
       translate_all env fuel self strings tgt src h = (t, Ok (Some out))) ∧
    requests t = TranslationsList src tgt <$> qs ∧
    length (requests t) = ceil_div (length strings) (Z.to_nat M) ∧
    (∀ i q, qs !! i = Some q →
       q = take (Z.to_nat M) (drop (i * Z.to_nat M) strings) ∧
       length q ≤ Z.to_nat M) ∧
    concat qs = strings ∧
    Forall2 P qs (answers t) ∧
    out = concat (answers t) ∧
    yields t = out.
Proof.
  intros Hc Hs Hmax HM Hp.
  assert (1 ≤ Z.to_nat M) as Hm by lia.
  rewrite <- (Z2Nat.id M) in Hmax by lia.
  destruct (consume_GoogleAPI env self tgt src (Z.to_nat M) Hs Hmax Hm P Hp
              (length strings) strings h (le_n _))
    as (fuel0 & t & Hrun & Hreq & Hans & Hy).
  exists t, (concat (answers t)), (chunks (Z.to_nat M) strings).
  split; [|split; [|split; [|split; [|split; [|split]]]]]; try done.
  - exists fuel0. intros fuel Hle. unfold translate_all.
    rewrite run_bind, (GoogleAPI_translate_strings_lazy _ _ _ _ _ _ Hc).
    rewrite app_nil_r. by rewrite (consume_mono _ fuel0 fuel _ _ _ _ Hrun Hle).
  - by rewrite Hreq, length_fmap, chunks_length.
  - intros i q. by apply chunks_lookup.
  - by apply chunks_concat.
Qed.

(** ** Every concrete backend *)

Lemma Amazon_translate_strings_lazy env self strings tgt src h :
  inst_class self = AmazonTranslateTranslatorService →
  translate_strings env self strings tgt src h
  = ([], Ok (Amazon_frame self strings tgt src)).
Proof. intros Hc. unfold translate_strings. by rewrite Hc. Qed.

Lemma consume_Amazon (R : string → string → Prop) env self strings tgt src :
  inst_class self = AmazonTranslateTranslatorService →
  is_Some (service self) →
  (∀ h x, ∃ y, translate_text env h x src tgt = Reply y ∧ R x y) →
  ∀ h, ∃ out,
    Forall2 R strings out ∧
    ∀ fuel, length strings < fuel →
      consume env fuel (Amazon_frame self strings tgt src) h =
      (per_item_trace tgt src strings out, Ok (Some out)).
Proof.
  intros Hc Hs Hp. induction strings as [|x strings IH]; intros h.
  - exists []. split; [constructor|].
    intros [|fuel] ?; [lia|]. by rewrite consume_S.
  - destruct (Hp h x) as (y & Hy & HR).
    destruct (IH (h ++ [Called (TranslateText x src tgt) (OneText y)]
                    ++ [Yielded y])) as (out & Hlen & Hrun).
    exists (y :: out). split; [by constructor|].
    intros [|fuel] Hlt; simpl in Hlt; [lia|].
    rewrite consume_S. simpl. rewrite run_bind.
    rewrite (Amazon_translate_string _ _ _ _ _ _ Hc Hs), Hy. simpl.
    by rewrite Hrun by lia.
Qed.

(** C4, as amended: for every instance of a concrete backend that holds
    its client, with a maximum segment count of at least one when it is the
    batch-limited backend, and providers whose every call returns one
    translation per item submitted, in the order of the request ([R]
    relates an item to the translation returned for it), consuming
    [translate_strings(strings, target_language, source_language)] ends
    and hands over exactly [len(strings)] texts, the text at each position
    being the translation of the input item at that position. *)
Theorem translate_strings_aligned (R : string → string → Prop)
    env self strings tgt src h :
  ready self →
  providers_aligned R env tgt src →
  ∃ t out,
    (∃ fuel0, ∀ fuel, fuel0 ≤ fuel →
       translate_all env fuel self strings tgt src h = (t, Ok (Some out))) ∧
    yields t = out ∧
    length out = length strings ∧
    Forall2 R strings out.
Proof.
  intros (Hc & Hs & HM) (Hgt & Hapi & Hboto).
  unfold concrete_backends in Hc.
  rewrite !elem_of_cons, elem_of_nil in Hc.
  destruct Hc as [Hc | [Hc | [Hc | []]]].
  - destruct (Hgt h strings) as (l & Hl & HR).
    exists (Called (GoogletransTranslateMany strings tgt src) (Texts l)
              :: (Yielded <$> l)), l.
    split; [|split; [|split]].
    + exists (S (length l)). intros fuel Hle. unfold translate_all.
      rewrite run_bind.
      rewrite (Google_translate_strings_call _ _ _ _ _ _ Hc Hs), Hl.
      by rewrite consume_GenExpr by lia.
    + change (?c :: ?t') with ([c] ++ t').
      by rewrite yields_app, yields_Yielded.
    + symmetry. by eapply Forall2_length.
    + done.
  - destruct (HM Hc) as (M & Hmax & HM1).
    assert (1 ≤ Z.to_nat M) as Hm by lia.
    rewrite <- (Z2Nat.id M) in Hmax by lia.
    destruct (consume_GoogleAPI env self tgt src (Z.to_nat M) Hs Hmax Hm
                (Forall2 R) Hapi (length strings) strings h (le_n _))
      as (fuel0 & t & Hrun & _ & Hans & Hy).
    exists t, (concat (answers t)).
    assert (Forall2 R strings (concat (answers t))) as HR.
    { rewrite <- (chunks_concat (Z.to_nat M) Hm strings) at 1.
      by apply Forall2_concat. }
    split; [|split; [done|split; [|done]]].
    + exists fuel0. intros fuel Hle. unfold translate_all.
      rewrite run_bind, (GoogleAPI_translate_strings_lazy _ _ _ _ _ _ Hc).
      rewrite app_nil_r.
      by rewrite (consume_mono _ fuel0 fuel _ _ _ _ Hrun Hle).
    + symmetry. by eapply Forall2_length.
  - destruct (consume_Amazon R env self strings tgt src Hc Hs Hboto h)
      as (out & HR & Hrun).
    assert (length out = length strings) as Hlen
      by (symmetry; by eapply Forall2_length).
    exists (per_item_trace tgt src strings out), out.
    split; [|split; [|split]]; try done.
    + exists (S (length strings)). intros fuel Hle. unfold translate_all.
      rewrite run_bind, (Amazon_translate_strings_lazy _ _ _ _ _ _ Hc).
      rewrite app_nil_r. by rewrite Hrun by lia.
    + by apply yields_per_item.
Qed.

Lemma per_item_answers_related (R : string → string → Prop)
    env tgt src strings :
  (∀ h x y, translate_text env h x src tgt = Reply y → R x y) →
  ∀ h, length (per_item_answers env tgt src strings h) = length strings →
       Forall2 R strings (per_item_answers env tgt src strings h).
Proof.
  intros HR. induction strings as [|x strings IH]; intros h Hlen;
    [constructor|].
  cbn [per_item_answers] in *.
  destruct (translate_text env h x src tgt) as [y|w] eqn:Hy; [|done].
  constructor; [by eapply HR|]. apply IH. simpl in Hlen. lia.
Qed.

Lemma consume_Amazon_answers env self strings tgt src :
  inst_class self = AmazonTranslateTranslatorService →
  is_Some (service self) →
  (∀ h x, ∃ y, translate_text env h x src tgt = Reply y) →
  ∀ h,
    length (per_item_answers env tgt src strings h) = length strings ∧
    ∀ fuel, length strings < fuel →
      consume env fuel (Amazon_frame self strings tgt src) h =
      (per_item_trace tgt src strings (per_item_answers env tgt src strings h),
       Ok (Some (per_item_answers env tgt src strings h))).
Proof.
  intros Hc Hs Hp. induction strings as [|x strings IH]; intros h.
  - split; [done|]. intros [|fuel] ?; [lia|]. by rewrite consume_S.
  - cbn [per_item_answers]. destruct (Hp h x) as [y Hy]. rewrite Hy.
    destruct (IH (h ++ [Called (TranslateText x src tgt) (OneText y);
                        Yielded y])) as [Hlen Hrun].
    split; [simpl; by rewrite Hlen|].
    intros [|fuel] Hlt; simpl in Hlt; [lia|].
    rewrite consume_S. cbn [gen_step]. rewrite run_bind.
    rewrite (Amazon_translate_string _ _ _ _ _ _ Hc Hs), Hy. cbn.
    by rewrite Hrun by lia.
Qed.

(** C5: on an instance of [AmazonTranslateTranslatorService], with a
    provider that answers, the call of [translate_strings] contacts no
    provider, and consuming its generator makes one [translate_text] call
    per item, on that item alone, in the order of the input, and hands
    over, right after each call, the text that call returned: the texts
    handed over are [per_item_answers], what [translate_text] of the
    environment answers item by item, so that any relation between an item
    and every answer of the provider to it holds between the input and the
    output, position by position; [N] calls and [N] texts for [N] items. *)
Theorem Amazon_translate_strings_per_item env self strings tgt src h :
  inst_class self = AmazonTranslateTranslatorService →
  is_Some (service self) →
  (∀ h' x, ∃ y, translate_text env h' x src tgt = Reply y) →
  translate_strings env self strings tgt src h =
    ([], Ok (Amazon_frame self strings tgt src)) ∧
  (∀ fuel, length strings < fuel →
     translate_all env fuel self strings tgt src h =
     (per_item_trace tgt src strings
        (per_item_answers env tgt src strings h),
      Ok (Some (per_item_answers env tgt src strings h)))) ∧
  length (per_item_answers env tgt src strings h) = length strings ∧
  (∀ R : string → string → Prop,
     (∀ h' x y, translate_text env h' x src tgt = Reply y → R x y) →
     Forall2 R strings (per_item_answers env tgt src strings h)) ∧
  requests (per_item_trace tgt src strings
              (per_item_answers env tgt src strings h))
    = (λ x, TranslateText x src tgt) <$> strings ∧
  length (requests (per_item_trace tgt src strings
                      (per_item_answers env tgt src strings h)))
    = length strings ∧
  yields (per_item_trace tgt src strings
            (per_item_answers env tgt src strings h))
    = per_item_answers env tgt src strings h.
Proof.
  intros Hc Hs Hp.
  pose proof (Amazon_translate_strings_lazy env self strings tgt src h Hc)
    as Hcall.
  split; [done|].
  destruct (consume_Amazon_answers env self strings tgt src Hc Hs Hp h)
    as [Hlen Hrun].
  split; [|split; [done|split; [|split; [|split]]]].
  - intros fuel Hlt. unfold translate_all.
    rewrite run_bind, Hcall, app_nil_r. by rewrite Hrun.
  - intros R HR. by apply per_item_answers_related.
  - by apply requests_per_item.
  - rewrite requests_per_item by done. by rewrite length_fmap.
  - by apply yields_per_item.
Qed.

(** ** Abstract and overridden methods *)

Lemma Base_translate_string env self text tgt src h :
  inst_class self = BaseTranslatorService →
  translate_string env self text tgt src h =
  ([], Raise (NotImplementedError "translate_string() must be overridden.")).
Proof. intros Hc. unfold translate_string. by rewrite Hc. Qed.

Lemma Base_translate_strings env self strings tgt src h :
  inst_class self = BaseTranslatorService →
  translate_strings env self strings tgt src h =
  ([], Raise (NotImplementedError "translate_strings() must be overridden.")).
Proof. intros Hc. unfold translate_strings. by rewrite Hc. Qed.

Lemma not_implemented_Ok {A} (a : A) : ¬ not_implemented (Ok a).
Proof. by intros [msg ?]. Qed.

Lemma not_implemented_Raise {A} (e : exn) :
  is_NotImplementedError e = false → ¬ not_implemented (@Raise A e).
Proof. intros He [msg [= ->]]. done. Qed.

Lemma not_implemented_inv {A} (e : exn) :
  ¬ not_implemented (@Raise A e) → is_NotImplementedError e = false.
Proof. destruct e; try done. intros H. destruct H. by eexists. Qed.

Lemma translate_string_concrete env self text tgt src h :
  inst_class self ∈ concrete_backends →
  ¬ not_implemented (translate_string env self text tgt src h).2.
Proof.
  unfold concrete_backends. rewrite !elem_of_cons, elem_of_nil.
  unfold translate_string.
  intros [-> | [-> | [-> | []]]]; cbn [resolve mro List.find class_defines].
  - unfold GoogleTranslatorService_translate_string, get_service.
    destruct (service self); [rewrite run_bind_ret|].
    + unfold call_provider. destruct (googletrans_translate _ _ _ _ _);
        by (apply not_implemented_Ok || apply not_implemented_Raise).
    + by apply not_implemented_Raise.
  - unfold GoogleAPITranslatorService_translate_string, get_service.
    destruct (service self); [rewrite run_bind_ret|].
    + rewrite run_bind. unfold call_provider.
      destruct (translations_list _ _ _ _ _) as [[|y l]|w]; simpl;
        by (apply not_implemented_Ok || apply not_implemented_Raise).
    + by apply not_implemented_Raise.
  - unfold AmazonTranslateTranslatorService_translate_string, get_service.
    destruct (service self); [rewrite run_bind_ret|].
    + unfold call_provider. destruct (translate_text _ _ _ _ _);
        by (apply not_implemented_Ok || apply not_implemented_Raise).
    + by apply not_implemented_Raise.
Qed.

Lemma gen_step_concrete env g h :
  frame_ok g →
  match gen_step env g h with
  | (_, Ok (Yield _ g')) | (_, Ok (Continue g')) => frame_ok g'
  | (_, Ok StopIteration) => True
  | (_, Raise e) => is_NotImplementedError e = false
  end.
Proof.
  destruct g as [pending | self strings tgt src yielding
                 | self strings tgt src]; intros Hok.
  - by destruct pending.
  - destruct yielding as [[|text pending]|]; cbn [gen_step]; try done.
    + unfold get_max_segments. destruct (max_segments self); [|done].
      by rewrite run_bind_ret.
    + destruct strings as [|x strings]; [done|].
      unfold get_service, get_max_segments.
      destruct (service self); [|done]. rewrite run_bind_ret.
      destruct (max_segments self); [|done]. rewrite run_bind_ret, run_bind.
      unfold call_provider. by destruct (translations_list _ _ _ _ _).
  - destruct strings as [|x strings]; [done|]. cbn [gen_step].
    rewrite run_bind.
    pose proof (translate_string_concrete env self x tgt src h Hok) as Hts.
    destruct (translate_string env self x tgt src h) as [t [y|e]]; [done|].
    by apply not_implemented_inv in Hts.
Qed.

Lemma consume_concrete env fuel g h :
  frame_ok g → ¬ not_implemented (consume env fuel g h).2.
Proof.
  revert g h. induction fuel as [|fuel IH]; intros g h Hok.
  - apply not_implemented_Ok.
  - rewrite consume_S. pose proof (gen_step_concrete env g h Hok) as Hstep.
    destruct (gen_step env g h) as [t1 [[v g'|g'|]|e]].
    + specialize (IH g' (h ++ t1 ++ [Yielded v]) Hstep).
      destruct (consume env fuel g' _) as [t2 [rest|e]];
        [apply not_implemented_Ok|done].
    + specialize (IH g' (h ++ t1) Hstep).
      by destruct (consume env fuel g' _) as [t2 r].
    + apply not_implemented_Ok.
    + by apply not_implemented_Raise.
Qed.

Lemma translate_strings_concrete env self strings tgt src h :
  inst_class self ∈ concrete_backends →
  match translate_strings env self strings tgt src h with
  | (_, Ok g) => frame_ok g
  | (_, Raise e) => is_NotImplementedError e = false
  end.
Proof.
  intros Hok. assert (Hc := Hok). unfold concrete_backends in Hc.
  rewrite !elem_of_cons, elem_of_nil in Hc. unfold translate_strings.
  destruct Hc as [Hc | [Hc | [Hc | []]]]; rewrite Hc;
    cbn [resolve mro List.find class_defines]; [|done..].
  unfold GoogleTranslatorService_translate_strings, get_service.
  destruct (service self); [rewrite run_bind_ret|done].
  rewrite run_bind. unfold call_provider.
  by destruct (googletrans_translate_many _ _ _ _ _).
Qed.

(** C8: on an instance of [BaseTranslatorService] itself, where the
    capability is not provided, [translate_string] and [translate_strings]
    raise [NotImplementedError] with a message that names the method; on an
    instance of any of the three concrete backends neither the call of
    [translate_string], nor the call of [translate_strings], nor the
    consumption of what it returns raises a [NotImplementedError], whatever
    the providers do. *)
Theorem not_implemented_only_in_base env text strings tgt src h :
  (∀ self, inst_class self = BaseTranslatorService →
     translate_string env self text tgt src h =
       ([], Raise (NotImplementedError
                     "translate_string() must be overridden.")) ∧
     translate_strings env self strings tgt src h =
       ([], Raise (NotImplementedError
                     "translate_strings() must be overridden."))) ∧
  (∀ self, inst_class self ∈ concrete_backends →
     ¬ not_implemented (translate_string env self text tgt src h).2 ∧
     ¬ not_implemented (translate_strings env self strings tgt src h).2 ∧
     ∀ fuel,
       ¬ not_implemented (translate_all env fuel self strings tgt src h).2).
Proof.
  split.
  - intros self Hc. split.
    + by apply Base_translate_string.
    + by apply Base_translate_strings.
  - intros self Hc.
    pose proof (translate_strings_concrete env self strings tgt src h Hc)
      as Hcall.
    split; [by apply translate_string_concrete|]. split.
    + destruct (translate_strings env self strings tgt src h) as [t [g|e]];
        [apply not_implemented_Ok|by apply not_implemented_Raise].
    + intros fuel. unfold translate_all. rewrite run_bind.
      destruct (translate_strings env self strings tgt src h) as [t [g|e]].
      * pose proof (consume_concrete env fuel g (h ++ t) Hcall) as Hrun.
        by destruct (consume env fuel g (h ++ t)).
      * by apply not_implemented_Raise.
Qed.

(** ** A maximum segment count of zero *)

(** Why C3 and C4 ask for a count of at least one: with
    [max_segments = 0] each call carries no item and drops none, so on a
    list with items the loop never ends, however many transitions it is
    given. *)
Lemma GoogleAPI_zero_segments_never_ends env self x strings tgt src :
  is_Some (service self) → max_segments self = Some 0%Z →
  translations_list_answers (λ _ _, True) env tgt src →
  ∀ fuel yielding h,
    (consume env fuel
       (GoogleAPI_frame self (x :: strings) tgt src yielding) h).2 = Ok None.
Proof.
  intros [svc Hs] Hmax Hp. induction fuel as [|fuel IH]; intros yielding h;
    [done|].
  rewrite consume_S. destruct yielding as [[|text pending]|]; cbn [gen_step].
  - unfold get_max_segments. rewrite Hmax, run_bind_ret.
    change (slice_from (x :: strings) 0) with (x :: strings).
    rewrite run_ret. specialize (IH None (h ++ [])).
    by destruct (consume env fuel _ _).
  - rewrite run_ret. specialize (IH (Some pending) (h ++ [] ++ [Yielded text])).
    destruct (consume env fuel _ _) as [t2 [rest|e]]; simpl in *; [|done].
    by injection IH as ->.
  - unfold get_service, get_max_segments.
    rewrite Hs, Hmax, !run_bind_ret, run_bind. unfold call_provider.
    destruct (Hp h (slice_to (x :: strings) 0)) as (l & -> & _).
    cbn [mret prog_ret].
    specialize (IH (Some l) (h ++ [Called
      (TranslationsList src tgt (slice_to (x :: strings) 0)) (Texts l)] ++ [])).
    by destruct (consume env fuel _ _).
Qed.

(** ** The claims at concrete inputs *)

Example construct_a_Google :
  construct (full_env None) GoogleTranslatorService []
  = ([ImportStmt "googletrans" true; ClientBuilt GoogletransTranslator],
     Ok a_Google).
Proof. reflexivity. Qed.

Example construct_a_GoogleAPI :
  construct_GoogleAPI (full_env None) 128 []
  = ([ImportStmt "googleapiclient.discovery" true;
      ClientBuilt (GoogleApiResource (VStr "secret"))],
     Ok (a_GoogleAPI 128)).
Proof. reflexivity. Qed.

Example construct_an_Amazon :
  construct (full_env None) AmazonTranslateTranslatorService []
  = ([ImportStmt "boto3" true; ClientBuilt BotoTranslateClient],
     Ok an_Amazon).
Proof. reflexivity. Qed.

Lemma example_providers_aligned sv tgt src :
  providers_aligned marked (full_env sv) tgt src.
Proof.
  assert (∀ q : list string, Forall2 marked q ((λ x, "tr:" +:+ x) <$> q)).
  { intros q. induction q; constructor; done. }
  split; [|split]; intros h q; eexists; (split; [reflexivity|]); done.
Qed.

Lemma get_translator_rejects_backends_witness :
  get_translator (full_env (Some (VClass GoogleTranslatorService))) [] =
  ([], Raise (ImproperlyConfigured
     "The translator service '<class 'autotranslate.services.GoogleTranslatorService'>' specified in settings.AUTOTRANSLATE_TRANSLATOR_SERVICE does not subclass BaseTranslatorService.")).
Proof.
  apply (get_translator_rejects_backends _ GoogleTranslatorService).
  - left. reflexivity.
  - reflexivity.
  - discriminate.
Defined.

(** The same through a dotted path. *)
Example get_translator_rejects_dotted_path :
  get_translator
    (full_env (Some (VStr "autotranslate.services.GoogleAPITranslatorService")))
    [] =
  ([], Raise (ImproperlyConfigured
     "The translator service '<class 'autotranslate.services.GoogleAPITranslatorService'>' specified in settings.AUTOTRANSLATE_TRANSLATOR_SERVICE does not subclass BaseTranslatorService.")).
Proof. reflexivity. Qed.

Lemma get_translator_accepts_object_witness :
  subclass_of object_ BaseTranslatorService = false ∧
  resolve object_ m_translate_string = None ∧
  resolve object_ m_translate_strings = None ∧
  get_translator (full_env (Some (VStr "builtins.object"))) []
  = ([], Ok (blank object_)).
Proof.
  apply (get_translator_accepts_object
           (full_env (Some (VStr "builtins.object"))) []).
  right. exists "builtins.object". split; reflexivity.
Defined.

Lemma get_translator_default_rejected_witness :
  get_translator installed_env [] =
  ([], Raise (ImproperlyConfigured
     "The translator service '<class 'autotranslate.services.GoogleTranslatorService'>' specified in settings.AUTOTRANSLATE_TRANSLATOR_SERVICE does not subclass BaseTranslatorService.")).
Proof. apply (get_translator_default_rejected installed_env []). reflexivity. Defined.

(** 300 items with a maximum of 128: three calls, of 128, 128 and 44
    items, and 300 texts. *)
Example GoogleAPI_300_items_128_segments :
  let run := translate_all (full_env None) 1000 (a_GoogleAPI 128)
               (replicate 300 "text") "fr" "en" [] in
  (λ rq, match rq with
         | TranslationsList _ _ q => length q
         | _ => 0
         end) <$> requests run.1 = [128; 128; 44] ∧
  run.2 = Ok (Some (replicate 300 "tr:text")).
Proof. vm_compute. done. Qed.

Lemma GoogleAPI_translate_strings_chunked_witness :
  ∃ t out qs,
    (∃ fuel0, ∀ fuel, fuel0 ≤ fuel →
       translate_all (full_env None) fuel (a_GoogleAPI 2)
         ["a"; "b"; "c"; "d"; "e"] "fr" "en" [] = (t, Ok (Some out))) ∧
    requests t = TranslationsList "en" "fr" <$> qs ∧
    length (requests t) = ceil_div 5 2 ∧
    (∀ i q, qs !! i = Some q →
       q = take 2 (drop (i * 2) ["a"; "b"; "c"; "d"; "e"]) ∧ length q ≤ 2) ∧
    concat qs = ["a"; "b"; "c"; "d"; "e"] ∧
    Forall2 (Forall2 marked) qs (answers t) ∧
    out = concat (answers t) ∧
    yields t = out.
Proof.
  apply (GoogleAPI_translate_strings_chunked (Forall2 marked)
           (full_env None) (a_GoogleAPI 2) ["a"; "b"; "c"; "d"; "e"]
           "fr" "en" 2 []).
  - reflexivity.
  - by eexists.
  - reflexivity.
  - lia.
  - apply (example_providers_aligned None).
Defined.

Lemma a_GoogleAPI_ready : ready (a_GoogleAPI 2).
Proof.
  split; [|split].
  - unfold concrete_backends. simpl. rewrite !elem_of_cons. auto.
  - by eexists.
  - intros _. exists 2%Z. split; [reflexivity|lia].
Qed.

Lemma translate_strings_aligned_witness :
  ∃ t out,
    (∃ fuel0, ∀ fuel, fuel0 ≤ fuel →
       translate_all (full_env None) fuel (a_GoogleAPI 2)
         ["a"; "b"; "c"] "fr" "en" [] = (t, Ok (Some out))) ∧
    yields t = out ∧
    length out = length ["a"; "b"; "c"] ∧
    Forall2 marked ["a"; "b"; "c"] out.
Proof.
  apply (translate_strings_aligned marked (full_env None) (a_GoogleAPI 2)
           ["a"; "b"; "c"] "fr" "en" []).
  - apply a_GoogleAPI_ready.
  - apply example_providers_aligned.
Defined.

(** C4 as stated does not hold: the constructor keeps a maximum segment
    count of zero, and on the instance it returns, with providers that
    return one translation per item in the order of the request, the
    consumption of [translate_strings] on a list of one item never ends:
    no run hands over [len(S)] texts. *)
Lemma translate_strings_zero_segments_not_aligned :
  construct_GoogleAPI (full_env None) 0 [] =
    ([ImportStmt "googleapiclient.discovery" true;
      ClientBuilt (GoogleApiResource (VStr "secret"))],
     Ok (a_GoogleAPI 0)) ∧
  inst_class (a_GoogleAPI 0) ∈ concrete_backends ∧
  providers_aligned marked (full_env None) "fr" "en" ∧
  (∀ fuel,
     (translate_all (full_env None) fuel (a_GoogleAPI 0)
        ["a"] "fr" "en" []).2 = Ok None) ∧
  ¬ ∃ fuel t out,
      translate_all (full_env None) fuel (a_GoogleAPI 0) ["a"] "fr" "en" []
      = (t, Ok (Some out)).
Proof.
  assert (∀ fuel,
     (translate_all (full_env None) fuel (a_GoogleAPI 0)
        ["a"] "fr" "en" []).2 = Ok None) as Hnever.
  { intros fuel. unfold translate_all.
    rewrite run_bind,
      (GoogleAPI_translate_strings_lazy (full_env None) (a_GoogleAPI 0)
         ["a"] "fr" "en" [] eq_refl).
    rewrite app_nil_r.
    assert (translations_list_answers (λ _ _, True) (full_env None)
              "fr" "en") as Hp
      by (intros h q; eexists; split; [reflexivity|exact I]).
    pose proof (GoogleAPI_zero_segments_never_ends (full_env None)
                  (a_GoogleAPI 0) "a" [] "fr" "en"
                  ltac:(by eexists) eq_refl Hp fuel None []) as Hloop.
    by destruct (consume _ fuel _ []) as [t r]. }
  split; [reflexivity|]. split.
  { unfold concrete_backends. simpl. rewrite !elem_of_cons. auto. }
  split; [apply example_providers_aligned|]. split; [exact Hnever|].
  intros (fuel & t & out & Hrun). specialize (Hnever fuel).
  rewrite Hrun in Hnever. discriminate.
Qed.

Lemma Amazon_translate_strings_per_item_witness :
  translate_strings (full_env None) an_Amazon ["a"; "b"] "fr" "en" [] =
    ([], Ok (Amazon_frame an_Amazon ["a"; "b"] "fr" "en")) ∧
  (∀ fuel, length ["a"; "b"] < fuel →
     translate_all (full_env None) fuel an_Amazon ["a"; "b"] "fr" "en" [] =
     (per_item_trace "fr" "en" ["a"; "b"]
        (per_item_answers (full_env None) "fr" "en" ["a"; "b"] []),
      Ok (Some (per_item_answers (full_env None) "fr" "en" ["a"; "b"] [])))) ∧
  length (per_item_answers (full_env None) "fr" "en" ["a"; "b"] [])
    = length ["a"; "b"] ∧
  (∀ R : string → string → Prop,
     (∀ h' x y,
        translate_text (full_env None) h' x "en" "fr" = Reply y → R x y) →
     Forall2 R ["a"; "b"]
       (per_item_answers (full_env None) "fr" "en" ["a"; "b"] [])) ∧
  requests (per_item_trace "fr" "en" ["a"; "b"]
              (per_item_answers (full_env None) "fr" "en" ["a"; "b"] []))
    = (λ x, TranslateText x "en" "fr") <$> ["a"; "b"] ∧
  length (requests (per_item_trace "fr" "en" ["a"; "b"]
                      (per_item_answers (full_env None) "fr" "en"
                         ["a"; "b"] [])))
    = length ["a"; "b"] ∧
  yields (per_item_trace "fr" "en" ["a"; "b"]
            (per_item_answers (full_env None) "fr" "en" ["a"; "b"] []))
    = per_item_answers (full_env None) "fr" "en" ["a"; "b"] [].
Proof.
  apply (Amazon_translate_strings_per_item (full_env None) an_Amazon
           ["a"; "b"] "fr" "en" []).
  - reflexivity.
  - by eexists.
  - intros h' x. eexists. reflexivity.
Defined.

Example per_item_answers_two_items :
  per_item_answers (full_env None) "fr" "en" ["a"; "b"] []
  = ["tr:a"; "tr:b"].
Proof. reflexivity. Qed.

Example Amazon_two_items :
  translate_all (full_env None) 3 an_Amazon ["a"; "b"] "fr" "en" [] =
  ([Called (TranslateText "a" "en" "fr") (OneText "tr:a"); Yielded "tr:a";
    Called (TranslateText "b" "en" "fr") (OneText "tr:b"); Yielded "tr:b"],
   Ok (Some ["tr:a"; "tr:b"])).
Proof. reflexivity. Qed.

Lemma GoogleAPI_init_requires_key_witness :
  construct_GoogleAPI installed_env 128 [] =
    ([ImportStmt "googleapiclient.discovery" true],
     Raise (ImproperlyConfigured
       "`GOOGLE_TRANSLATE_KEY` is not configured, it is required by `GoogleAPITranslatorService`")) ∧
  construct installed_env GoogleAPITranslatorService [] =
    ([ImportStmt "googleapiclient.discovery" true],
     Raise (ImproperlyConfigured
       "`GOOGLE_TRANSLATE_KEY` is not configured, it is required by `GoogleAPITranslatorService`")) ∧
  no_provider_contact [ImportStmt "googleapiclient.discovery" true].
Proof.
  apply (GoogleAPI_init_requires_key installed_env 128 []).
  - vm_compute. reflexivity.
  - reflexivity.
Defined.

(** C6 as stated does not hold: with the key absent and the Google API
    client package not installed, the constructor raises [ImportError],
    not [ImproperlyConfigured]. *)
Lemma GoogleAPI_init_without_package_not_configuration_error :
  truthy (getattr_settings bare_env "GOOGLE_TRANSLATE_KEY" VNone) = false ∧
  construct bare_env GoogleAPITranslatorService [] =
    ([ImportStmt "googleapiclient.discovery" false],
     Raise (ImportError
       "`GoogleAPITranslatorService` requires the `google-api-python-client` package.")) ∧
  ¬ ∃ t msg, construct bare_env GoogleAPITranslatorService [] =
             (t, Raise (ImproperlyConfigured msg)).
Proof.
  split; [reflexivity|]. split; [reflexivity|].
  intros (t & msg & H). vm_compute in H. discriminate.
Qed.

Lemma not_implemented_only_in_base_witness :
  (translate_string (full_env None) (blank BaseTranslatorService)
     "a" "fr" "en" [] =
     ([], Raise (NotImplementedError "translate_string() must be overridden.")) ∧
   translate_strings (full_env None) (blank BaseTranslatorService)
     ["a"] "fr" "en" [] =
     ([], Raise (NotImplementedError "translate_strings() must be overridden."))) ∧
  (¬ not_implemented
       (translate_string (full_env None) an_Amazon "a" "fr" "en" []).2 ∧
   ¬ not_implemented
       (translate_strings (full_env None) an_Amazon ["a"] "fr" "en" []).2 ∧
   ∀ fuel, ¬ not_implemented
       (translate_all (full_env None) fuel an_Amazon ["a"] "fr" "en" []).2).
Proof.
  destruct (not_implemented_only_in_base (full_env None) "a" ["a"]
              "fr" "en" []) as [Hbase Hconcrete].
  split.
  - apply Hbase. reflexivity.
  - apply Hconcrete. unfold concrete_backends. simpl.
    rewrite !elem_of_cons. auto.
Defined.

Lemma Amazon_init_requires_boto3_witness :
  construct bare_env AmazonTranslateTranslatorService [] =
    ([ImportStmt "boto3" false],
     Raise (ImportError
       "`AmazonTranslateTranslatorService` requires the `boto3` package")) ∧
  no_provider_contact [ImportStmt "boto3" false].
Proof.
  apply (Amazon_init_requires_boto3 bare_env []).
  vm_compute. intros H. inversion H.
Defined.

Lemma Google_translate_strings_eager_witness :
  translate_strings (full_env None) a_Google ["a"; "b"] "fr" "en" [] =
    ([Called (GoogletransTranslateMany ["a"; "b"] "fr" "en")
        (Texts ["tr:a"; "tr:b"])],
     Ok (GenExpr ["tr:a"; "tr:b"]))
  ∧ ∀ l h',
      (∀ fuel, requests (consume (full_env None) fuel (GenExpr l) h').1 = []) ∧
      (∀ fuel, length l < fuel →
         consume (full_env None) fuel (GenExpr l) h'
         = (Yielded <$> l, Ok (Some l))).
Proof.
  apply (Google_translate_strings_eager (full_env None) a_Google
           ["a"; "b"] "fr" "en" []).
  - reflexivity.
  - by eexists.
Defined.

(** * Further properties *)

(** ** The resolver, value by value *)

Lemma resolve_path_resolves env v h :
  resolves_to env v →
  resolve_path env
    (getattr_settings env SERVICE_SETTING (VClass GoogleTranslatorService)) h
  = ([], Ok v).
Proof.
  intros [[Hs Hv] | (path & Hs & Hp)];
    rewrite (getattr_settings_Some _ _ _ _ Hs).
  - destruct v; try reflexivity. by destruct (Hv s).
  - by apply resolve_path_found.
Qed.

Lemma get_translator_resolves env v h :
  resolves_to env v →
  get_translator env h = validate_and_call env v h.
Proof.
  intros Hv. unfold get_translator.
  rewrite run_bind, (resolve_path_resolves _ _ _ Hv), app_nil_r.
  by destruct (validate_and_call env v h).
Qed.








(** X3: a setting that is [None], or a dotted path that imports to [None],
    raises [ImproperlyConfigured] with the message of the subclass test,
    which names the value [None] and the setting. *)
Theorem get_translator_None env h :
  resolves_to env VNone →
  get_translator env h =
  ([], Raise (ImproperlyConfigured
     "The translator service 'None' specified in settings.AUTOTRANSLATE_TRANSLATOR_SERVICE does not subclass BaseTranslatorService.")).
Proof. intros Hv. by rewrite (get_translator_resolves _ _ _ Hv). Qed.

Lemma get_translator_None_witness :
  get_translator (full_env (Some VNone)) [] =
  ([], Raise (ImproperlyConfigured
     "The translator service 'None' specified in settings.AUTOTRANSLATE_TRANSLATOR_SERVICE does not subclass BaseTranslatorService.")).
Proof.
  apply (get_translator_None (full_env (Some VNone)) []).
  left. split; [reflexivity|discriminate].
Defined.



(** X5: a string setting that [import_string] cannot resolve raises
    [ImproperlyConfigured] with a message that names the path and the
    setting, before any test on a class. *)
Theorem get_translator_bad_path env path h :
  settings env !! SERVICE_SETTING = Some (VStr path) →
  import_table env !! path = None →
  get_translator env h =
  ([], Raise (ImproperlyConfigured
     ("Could not import the translator service '" +:+ path
      +:+ "' specified in settings.AUTOTRANSLATE_TRANSLATOR_SERVICE."))).
Proof.
  intros Hs Hp. unfold get_translator.
  by rewrite (getattr_settings_Some _ _ _ _ Hs), run_bind,
    (resolve_path_missing _ _ _ Hp).
Qed.

Lemma get_translator_bad_path_witness :
  get_translator (full_env (Some (VStr "no.such.Service"))) [] =
  ([], Raise (ImproperlyConfigured
     "Could not import the translator service 'no.such.Service' specified in settings.AUTOTRANSLATE_TRANSLATOR_SERVICE.")).
Proof.
  apply (get_translator_bad_path _ "no.such.Service"); reflexivity.
Defined.

(** X6: a plain class (a value of [pyclass]: no metaclass of its own, no
    subclass hook) that does not derive from [BaseTranslatorService], other
    than [object], is refused with [ImproperlyConfigured] and a message
    that names the class and the setting. *)
Theorem get_translator_rejects_foreign_class env c h :
  names_class env c →
  subclass_of c BaseTranslatorService = false → c ≠ object_ →
  get_translator env h =
  ([], Raise (ImproperlyConfigured
     ("The translator service '" +:+ class_str c
      +:+ "' specified in settings.AUTOTRANSLATE_TRANSLATOR_SERVICE does not subclass BaseTranslatorService."))).
Proof.
  intros Hn Hsub Hne.
  rewrite (get_translator_class _ _ _ Hn), validate_class.
  destruct (subclass_of BaseTranslatorService c) eqn:E; [|done].
  apply Base_subclass_of in E as [-> | ->]; [|done].
  by rewrite subclass_of_refl in Hsub.
Qed.

Lemma get_translator_rejects_foreign_class_witness :
  get_translator (full_env (Some (VClass Unrelated))) [] =
  ([], Raise (ImproperlyConfigured
     "The translator service '<class 'myapp.utils.Unrelated'>' specified in settings.AUTOTRANSLATE_TRANSLATOR_SERVICE does not subclass BaseTranslatorService.")).
Proof.
  apply (get_translator_rejects_foreign_class _ Unrelated).
  - left. reflexivity.
  - reflexivity.
  - discriminate.
Defined.

(** ** Constructors, outcome by outcome *)

Lemma concrete_backends_cases c :
  c ∈ concrete_backends →
  c = GoogleTranslatorService ∨ c = GoogleAPITranslatorService
  ∨ c = AmazonTranslateTranslatorService.
Proof.
  unfold concrete_backends. rewrite !elem_of_cons, elem_of_nil. tauto.
Qed.

(** What a constructor does, as a function of the environment. *)
Lemma construct_outcome env c h :
  c ∈ concrete_backends →
  construct env c h =
  if bool_decide (backend_module c ∈ modules env) then
    if bool_decide (c = GoogleAPITranslatorService) &&
       negb (truthy (getattr_settings env "GOOGLE_TRANSLATE_KEY" VNone))
    then
      ([ImportStmt (backend_module c) true],
       Raise (ImproperlyConfigured
         "`GOOGLE_TRANSLATE_KEY` is not configured, it is required by `GoogleAPITranslatorService`"))
    else
      match client_error env (backend_client env c) with
      | Some w =>
          ([ImportStmt (backend_module c) true;
            ClientBuilt (backend_client env c)], Raise (ProviderError w))
      | None =>
          ([ImportStmt (backend_module c) true;
            ClientBuilt (backend_client env c)],
           Ok (if bool_decide (c = GoogleAPITranslatorService) then
                 set_translated_strings
                   (set_max_segments
                      (set_service
                         (set_developer_key (blank c)
                            (getattr_settings env "GOOGLE_TRANSLATE_KEY" VNone))
                         (backend_client env c)) 128) []
               else set_service (blank c) (backend_client env c)))
      end
  else
    ([ImportStmt (backend_module c) false],
     Raise (ImportError
       (if bool_decide (c = GoogleTranslatorService) then
          "No module named 'googletrans'"
        else if bool_decide (c = GoogleAPITranslatorService) then
          "`GoogleAPITranslatorService` requires the `google-api-python-client` package."
        else
          "`AmazonTranslateTranslatorService` requires the `boto3` package"))).
Proof.
  intros Hc. apply concrete_backends_cases in Hc as [-> | [-> | ->]];
    unfold construct; cbn [resolve mro List.find class_defines];
    cbn [backend_module backend_client].
  - unfold GoogleTranslatorService_init, import_module, new_client.
    rewrite !run_bind. case_bool_decide.
    2: { simpl. by rewrite (missing_module_undotted env "googletrans"). }
    simpl. by destruct (client_error env GoogletransTranslator).
  - unfold GoogleAPITranslatorService_init, try_except, import_module,
      new_client.
    rewrite !run_bind. case_bool_decide; [|done]. simpl.
    destruct (truthy _); [|done]. simpl.
    by destruct (client_error env _).
  - unfold AmazonTranslateTranslatorService_init, try_except, import_module,
      new_client.
    rewrite !run_bind. case_bool_decide; [|done]. simpl.
    by destruct (client_error env BotoTranslateClient).
Qed.

(** X7: calling a concrete backend class without arguments succeeds exactly
    when its package imports, its client can be built and, for the paid
    Google API, [GOOGLE_TRANSLATE_KEY] is truthy; it then has imported the
    package and built that one client, called no provider, and the
    instance is of the class called and holds the client; for the paid
    Google API it also holds the key, a maximum segment count of 128 and an
    empty [translated_strings]. *)
Theorem construct_succeeds_iff env c h :
  c ∈ concrete_backends →
  ((∃ t self, construct env c h = (t, Ok self)) ↔
   backend_module c ∈ modules env ∧
   (c = GoogleAPITranslatorService →
    truthy (getattr_settings env "GOOGLE_TRANSLATE_KEY" VNone) = true) ∧
   client_error env (backend_client env c) = None) ∧
  (∀ t self, construct env c h = (t, Ok self) →
     t = [ImportStmt (backend_module c) true;
          ClientBuilt (backend_client env c)] ∧
     inst_class self = c ∧
     service self = Some (backend_client env c) ∧
     ready self ∧
     (c = GoogleAPITranslatorService →
      developer_key self
        = Some (getattr_settings env "GOOGLE_TRANSLATE_KEY" VNone) ∧
      max_segments self = Some 128%Z ∧
      translated_strings self = Some [])).
Proof.
  intros Hc.
  assert (∀ t self, construct env c h = (t, Ok self) → ready self) as Hready
    by (intros t self; by apply construct_ready).
  rewrite (construct_outcome env c h Hc) in Hready |- *.
  case_bool_decide as Hm.
  2: { split; [split; [by intros (? & ? & ?)|by intros (? & _)]
              |by intros ? ? ?]. }
  destruct (truthy _) eqn:Hk; cbn [negb] in *;
    rewrite ?andb_false_r, ?andb_true_r in *.
  - destruct (client_error env (backend_client env c)) as [w|] eqn:Hce.
    { split; [split; [by intros (? & ? & ?)|by intros (_ & _ & ?)]
             |by intros ? ? ?]. }
    split; [split; [done|intros _; by eexists _, _]|].
    intros t self Hrun. pose proof (Hready _ _ Hrun).
    injection Hrun as <- <-. by case_bool_decide.
  - case_bool_decide as HG.
    { split; [split; [by intros (? & ? & ?)|]|by intros ? ? ?].
      intros (_ & Hkey & _). by specialize (Hkey HG). }
    destruct (client_error env (backend_client env c)) as [w|] eqn:Hce.
    { split; [split; [by intros (? & ? & ?)|by intros (_ & _ & ?)]
             |by intros ? ? ?]. }
    split; [split; [done|intros _; by eexists _, _]|].
    intros t self Hrun. pose proof (Hready _ _ Hrun).
    by injection Hrun as <- <-.
Qed.

Lemma construct_succeeds_iff_witness :
  ((∃ t self, construct (full_env None) GoogleAPITranslatorService []
              = (t, Ok self)) ↔
   backend_module GoogleAPITranslatorService ∈ modules (full_env None) ∧
   (GoogleAPITranslatorService = GoogleAPITranslatorService →
    truthy (getattr_settings (full_env None) "GOOGLE_TRANSLATE_KEY" VNone)
    = true) ∧
   client_error (full_env None)
     (backend_client (full_env None) GoogleAPITranslatorService) = None) ∧
  (∀ t self,
     construct (full_env None) GoogleAPITranslatorService [] = (t, Ok self) →
     t = [ImportStmt (backend_module GoogleAPITranslatorService) true;
          ClientBuilt (backend_client (full_env None)
                         GoogleAPITranslatorService)] ∧
     inst_class self = GoogleAPITranslatorService ∧
     service self =
       Some (backend_client (full_env None) GoogleAPITranslatorService) ∧
     ready self ∧
     (GoogleAPITranslatorService = GoogleAPITranslatorService →
      developer_key self
        = Some (getattr_settings (full_env None) "GOOGLE_TRANSLATE_KEY"
                  VNone) ∧
      max_segments self = Some 128%Z ∧
      translated_strings self = Some [])).
Proof.
  apply (construct_succeeds_iff (full_env None) GoogleAPITranslatorService []).
  unfold concrete_backends. rewrite !elem_of_cons. auto.
Defined.

(** X8: [GoogleTranslatorService] does not wrap a failed import: without
    the [googletrans] package its constructor lets the [ImportError] of the
    [import] statement through, which names the module and not the
    service, and builds no client. *)
Theorem Google_init_import_error_unwrapped env h :
  "googletrans" ∉ modules env →
  construct env GoogleTranslatorService h =
    ([ImportStmt "googletrans" false],
     Raise (ImportError "No module named 'googletrans'")).
Proof.
  intros Hm. unfold construct. cbn [resolve mro List.find class_defines].
  unfold GoogleTranslatorService_init.
  rewrite run_bind, (import_module_missing _ _ _ Hm).
  by rewrite (missing_module_undotted env "googletrans").
Qed.

Lemma Google_init_import_error_unwrapped_witness :
  construct bare_env GoogleTranslatorService [] =
    ([ImportStmt "googletrans" false],
     Raise (ImportError "No module named 'googletrans'")).
Proof.
  apply (Google_init_import_error_unwrapped bare_env []).
  vm_compute. intros H. inversion H.
Defined.

(** X9: the messages of the constructors name the class of the instance
    being built, [self.__class__.__name__]: for a class declared as
    [class name(AmazonTranslateTranslatorService): pass] or
    [class name(GoogleAPITranslatorService): pass] the [ImportError] for
    the missing package, and the [ImproperlyConfigured] for the missing
    key, carry [name] and not the name of the class of [services.py]. *)
Theorem constructor_messages_name_subclass env module name h :
  ("boto3" ∉ modules env →
   construct env (Subclass module name AmazonTranslateTranslatorService) h =
     ([ImportStmt "boto3" false],
      Raise (ImportError
        ("`" +:+ name +:+ "` requires the `boto3` package")))) ∧
  ("googleapiclient.discovery" ∉ modules env →
   construct env (Subclass module name GoogleAPITranslatorService) h =
     ([ImportStmt "googleapiclient.discovery" false],
      Raise (ImportError
        ("`" +:+ name
         +:+ "` requires the `google-api-python-client` package.")))) ∧
  ("googleapiclient.discovery" ∈ modules env →
   truthy (getattr_settings env "GOOGLE_TRANSLATE_KEY" VNone) = false →
   construct env (Subclass module name GoogleAPITranslatorService) h =
     ([ImportStmt "googleapiclient.discovery" true],
      Raise (ImproperlyConfigured
        ("`GOOGLE_TRANSLATE_KEY` is not configured, it is required by `"
         +:+ name +:+ "`")))).
Proof.
  split; [|split].
  - intros Hm. unfold construct. cbn [resolve mro List.find class_defines].
    unfold AmazonTranslateTranslatorService_init, try_except.
    by rewrite run_bind, (import_module_missing _ _ _ Hm).
  - intros Hm. unfold construct. cbn [resolve mro List.find class_defines].
    unfold GoogleAPITranslatorService_init, try_except.
    by rewrite run_bind, (import_module_missing _ _ _ Hm).
  - intros Hm Hk. unfold construct.
    cbn [resolve mro List.find class_defines].
    unfold GoogleAPITranslatorService_init, try_except.
    by rewrite run_bind, (import_module_found _ _ _ Hm), Hk.
Qed.

Lemma constructor_messages_name_subclass_witness :
  construct bare_env
    (Subclass "myapp.services" "Polyglot" AmazonTranslateTranslatorService) []
  = ([ImportStmt "boto3" false],
     Raise (ImportError "`Polyglot` requires the `boto3` package")) ∧
  construct installed_env
    (Subclass "myapp.services" "Polyglot" GoogleAPITranslatorService) []
  = ([ImportStmt "googleapiclient.discovery" true],
     Raise (ImproperlyConfigured
       "`GOOGLE_TRANSLATE_KEY` is not configured, it is required by `Polyglot`")).
Proof.
  split.
  - apply (proj1 (constructor_messages_name_subclass bare_env
                    "myapp.services" "Polyglot" [])).
    vm_compute. intros H. inversion H.
  - apply (proj2 (proj2 (constructor_messages_name_subclass installed_env
                           "myapp.services" "Polyglot" []))).
    + vm_compute. reflexivity.
    + reflexivity.
Defined.

(** ** Single strings *)

(** X10: on an instance of a concrete backend that holds its client,
    [translate_string] makes exactly one provider call, with the text and
    the two languages, and what comes out is decided by what that call of
    the environment's provider does: when it raises, its exception comes
    out unchanged; when it returns an answer (of the shape the package
    reads), the text of the answer is the result, which for the paid Google
    API is the first translation of the response, or [IndexError] when the
    response has no translation. *)
Theorem translate_string_one_call env self text tgt src h :
  is_Some (service self) →
  (inst_class self = GoogleTranslatorService →
   translate_string env self text tgt src h =
   match googletrans_translate env h text tgt src with
   | Reply y =>
       ([Called (GoogletransTranslate text tgt src) (OneText y)], Ok y)
   | Fails w =>
       ([Called (GoogletransTranslate text tgt src) (Failed w)],
        Raise (ProviderError w))
   end) ∧
  (inst_class self = GoogleAPITranslatorService →
   translate_string env self text tgt src h =
   match translations_list env h src tgt [text] with
   | Reply l =>
       ([Called (TranslationsList src tgt [text]) (Texts l)],
        match l with
        | [] => Raise (IndexError "pop from empty list")
        | y :: _ => Ok y
        end)
   | Fails w =>
       ([Called (TranslationsList src tgt [text]) (Failed w)],
        Raise (ProviderError w))
   end) ∧
  (inst_class self = AmazonTranslateTranslatorService →
   translate_string env self text tgt src h =
   match translate_text env h text src tgt with
   | Reply y => ([Called (TranslateText text src tgt) (OneText y)], Ok y)
   | Fails w =>
       ([Called (TranslateText text src tgt) (Failed w)],
        Raise (ProviderError w))
   end).
Proof.
  intros [svc Hs]. unfold translate_string.
  split; [|split]; intros ->; cbn [resolve mro List.find class_defines].
  - unfold GoogleTranslatorService_translate_string, get_service.
    rewrite Hs, run_bind_ret. unfold call_provider.
    by destruct (googletrans_translate env h text tgt src).
  - unfold GoogleAPITranslatorService_translate_string, get_service.
    rewrite Hs, run_bind_ret, run_bind. unfold call_provider.
    by destruct (translations_list env h src tgt [text]) as [[|y l]|w].
  - unfold AmazonTranslateTranslatorService_translate_string, get_service.
    rewrite Hs, run_bind_ret. unfold call_provider.
    by destruct (translate_text env h text src tgt).
Qed.

Lemma translate_string_one_call_witness :
  translate_string (full_env None) a_Google "a" "fr" "en" [] =
    ([Called (GoogletransTranslate "a" "fr" "en") (OneText "tr:a")],
     Ok "tr:a") ∧
  translate_string (full_env None) (a_GoogleAPI 128) "a" "fr" "en" [] =
    ([Called (TranslationsList "en" "fr" ["a"]) (Texts ["tr:a"])],
     Ok "tr:a") ∧
  translate_string (flaky_env 0) an_Amazon "a" "fr" "en" [] =
    ([Called (TranslateText "a" "en" "fr") (Failed "quota exceeded")],
     Raise (ProviderError "quota exceeded")).
Proof.
  split; [|split].
  - exact (proj1 (translate_string_one_call (full_env None) a_Google
                    "a" "fr" "en" [] ltac:(by eexists)) eq_refl).
  - exact (proj1 (proj2 (translate_string_one_call (full_env None)
                           (a_GoogleAPI 128) "a" "fr" "en" []
                           ltac:(by eexists))) eq_refl).
  - exact (proj2 (proj2 (translate_string_one_call (flaky_env 0) an_Amazon
                           "a" "fr" "en" [] ltac:(by eexists))) eq_refl).
Defined.

(** X11: on the paid Google API backend, [translate_string(text)] and
    [translate_strings([text])] send the same request; when the provider
    answers it with the texts [l], the generator hands over all of [l] and
    [translate_string] returns the first of them. *)
Theorem GoogleAPI_single_item_agrees env self text tgt src M h l :
  inst_class self = GoogleAPITranslatorService →
  is_Some (service self) →
  max_segments self = Some M → (1 ≤ M)%Z →
  translations_list env h src tgt [text] = Reply l →
  translate_string env self text tgt src h =
    ([Called (TranslationsList src tgt [text]) (Texts l)],
     match l with
     | [] => Raise (IndexError "pop from empty list")
     | y :: _ => Ok y
     end) ∧
  ∀ fuel, length l + 3 ≤ fuel →
    translate_all env fuel self [text] tgt src h =
    (Called (TranslationsList src tgt [text]) (Texts l) :: (Yielded <$> l),
     Ok (Some l)).
Proof.
  intros Hc Hs Hmax HM Hl. split.
  - destruct Hs as [svc Hs]. unfold translate_string. rewrite Hc.
    cbn [resolve mro List.find class_defines].
    unfold GoogleAPITranslatorService_translate_string, get_service.
    rewrite Hs, run_bind_ret, run_bind. unfold call_provider. rewrite Hl.
    by destruct l.
  - assert (1 ≤ Z.to_nat M) as Hm by lia.
    rewrite <- (Z2Nat.id M) in Hmax by lia.
    assert (take (Z.to_nat M) [text] = [text]) as Htake
      by (destruct (Z.to_nat M); [lia|by rewrite firstn_cons, take_nil]).
    assert (drop (Z.to_nat M) [text] = []) as Hdrop
      by (destruct (Z.to_nat M); [lia|by rewrite skipn_cons, drop_nil]).
    intros fuel Hfuel.
    assert (consume env fuel (GoogleAPI_frame self [text] tgt src None) h =
            (Called (TranslationsList src tgt [text]) (Texts l)
               :: (Yielded <$> l), Ok (Some l))) as Hrun.
    { apply (consume_mono _ (S (length l + 2))); [|lia].
      rewrite consume_S, (step_head_cons _ _ _ _ _ Hs Hmax Hm), Htake.
      cbv zeta. rewrite Hl.
      rewrite (consume_yielding env self tgt src l [text] 2 _ [] []).
      - by rewrite !app_nil_r.
      - rewrite consume_S, (step_advance _ _ _ _ _ Hmax Hm), Hdrop.
        by rewrite consume_S. }
    unfold translate_all.
    rewrite run_bind, (GoogleAPI_translate_strings_lazy _ _ _ _ _ _ Hc).
    rewrite app_nil_r. by rewrite Hrun.
Qed.

Lemma GoogleAPI_single_item_agrees_witness :
  translate_string (full_env None) (a_GoogleAPI 128) "a" "fr" "en" [] =
    ([Called (TranslationsList "en" "fr" ["a"]) (Texts ["tr:a"])],
     Ok "tr:a") ∧
  ∀ fuel, length ["tr:a"] + 3 ≤ fuel →
    translate_all (full_env None) fuel (a_GoogleAPI 128) ["a"] "fr" "en" [] =
    (Called (TranslationsList "en" "fr" ["a"]) (Texts ["tr:a"])
       :: (Yielded <$> ["tr:a"]),
     Ok (Some ["tr:a"])).
Proof.
  apply (GoogleAPI_single_item_agrees (full_env None) (a_GoogleAPI 128)
           "a" "fr" "en" 128 [] ["tr:a"]).
  - reflexivity.
  - by eexists.
  - reflexivity.
  - lia.
  - reflexivity.
Defined.

(** ** Edge cases of [translate_strings] *)

(** X12: on an empty input the two generator functions make no provider
    call and hand over nothing, whatever the instance holds (the client and
    the maximum segment count are not even read); the free backend, a plain
    function, still sends its one request, with an empty list. *)
Theorem translate_strings_empty env self tgt src h :
  (inst_class self = GoogleAPITranslatorService ∨
   inst_class self = AmazonTranslateTranslatorService →
   ∀ fuel, translate_all env (S fuel) self [] tgt src h = ([], Ok (Some [])))
  ∧
  (inst_class self = GoogleTranslatorService → is_Some (service self) →
   requests (translate_strings env self [] tgt src h).1
   = [GoogletransTranslateMany [] tgt src]).
Proof.
  split.
  - intros [Hc | Hc] fuel; unfold translate_all, translate_strings;
      rewrite Hc; cbn [resolve mro List.find class_defines].
    + unfold GoogleAPITranslatorService_translate_strings.
      by rewrite run_bind_ret, consume_S.
    + unfold AmazonTranslateTranslatorService_translate_strings.
      by rewrite run_bind_ret, consume_S.
  - intros Hc Hs.
    rewrite (Google_translate_strings_call _ _ _ _ _ _ Hc Hs).
    by destruct (googletrans_translate_many env h [] tgt src).
Qed.

Lemma translate_strings_empty_witness :
  (∀ fuel, translate_all bare_env (S fuel)
             (blank AmazonTranslateTranslatorService) [] "fr" "en" []
           = ([], Ok (Some []))) ∧
  requests (translate_strings (full_env None) a_Google [] "fr" "en" []).1
  = [GoogletransTranslateMany [] "fr" "en"].
Proof.
  split.
  - apply (proj1 (translate_strings_empty bare_env
                    (blank AmazonTranslateTranslatorService) "fr" "en" [])).
    right. reflexivity.
  - apply (proj2 (translate_strings_empty (full_env None) a_Google
                    "fr" "en" [])).
    + reflexivity.
    + by eexists.
Defined.

(** X13: [GoogleAPITranslatorService.translate_strings] is a generator
    function: the call contacts no provider and cannot raise, even on an
    instance without client; the first request goes out at the first
    [next], and a provider that raises then makes that [next] raise, with
    nothing handed over. *)
Theorem GoogleAPI_translate_strings_deferred
    env self x strings tgt src M h :
  inst_class self = GoogleAPITranslatorService →
  translate_strings env self (x :: strings) tgt src h =
    ([], Ok (GoogleAPI_frame self (x :: strings) tgt src None)) ∧
  (service self = None →
   ∀ fuel h',
     next env (S fuel) (GoogleAPI_frame self (x :: strings) tgt src None) h'
     = ([], Raise (AttributeError
          ("'" +:+ class_name (inst_class self)
           +:+ "' object has no attribute 'service'")))) ∧
  (is_Some (service self) → max_segments self = Some M →
   ∀ fuel h' w,
     translations_list env h' src tgt (slice_to (x :: strings) M) = Fails w →
     next env (S fuel) (GoogleAPI_frame self (x :: strings) tgt src None) h'
     = ([Called (TranslationsList src tgt (slice_to (x :: strings) M))
           (Failed w)],
        Raise (ProviderError w))).
Proof.
  intros Hc. split; [by apply GoogleAPI_translate_strings_lazy|]. split.
  - intros Hs fuel h'. cbn [next gen_step]. unfold get_service. by rewrite Hs.
  - intros [svc Hs] Hmax fuel h' w Hw. cbn [next gen_step].
    unfold get_service, get_max_segments.
    rewrite Hs, Hmax, run_bind, !run_bind_ret, run_bind.
    unfold call_provider. by rewrite Hw.
Qed.

Lemma GoogleAPI_translate_strings_deferred_witness :
  translate_strings bare_env (blank GoogleAPITranslatorService)
    ["a"; "b"] "fr" "en" [] =
    ([], Ok (GoogleAPI_frame (blank GoogleAPITranslatorService)
               ["a"; "b"] "fr" "en" None)) ∧
  ∀ fuel h',
    next bare_env (S fuel)
      (GoogleAPI_frame (blank GoogleAPITranslatorService)
         ["a"; "b"] "fr" "en" None) h'
    = ([], Raise (AttributeError
         "'GoogleAPITranslatorService' object has no attribute 'service'")).
Proof.
  destruct (GoogleAPI_translate_strings_deferred bare_env
              (blank GoogleAPITranslatorService) "a" ["b"] "fr" "en" 128 []
              eq_refl) as (Hcall & Hmissing & _).
  split; [exact Hcall|]. apply Hmissing. reflexivity.
Defined.

(** ** Runs that are cut short or fail *)

(** A property of the events that every transition keeps holds of every
    run, however long. *)
Lemma consume_Forall env (Inv : generator → Prop) (Φ : event → Prop) :
  (∀ v, Φ (Yielded v)) →
  (∀ g h, Inv g →
     Forall Φ (gen_step env g h).1 ∧
     match (gen_step env g h).2 with
     | Ok (Yield _ g') | Ok (Continue g') => Inv g'
     | _ => True
     end) →
  ∀ fuel g h, Inv g → Forall Φ (consume env fuel g h).1.
Proof.
  intros Hy Hstep. induction fuel as [|fuel IH]; intros g h Hg; [constructor|].
  rewrite consume_S. destruct (Hstep g h Hg) as [Ht Hg'].
  destruct (gen_step env g h) as [t1 [[v g'|g'|]|e]]; simpl in *; try done.
  - specialize (IH g' (h ++ t1 ++ [Yielded v]) Hg').
    destruct (consume env fuel g' _) as [t2 [rest|e]]; simpl in *;
      (apply Forall_app; split; [done|by constructor]).
  - specialize (IH g' (h ++ t1) Hg').
    destruct (consume env fuel g' _) as [t2 r]; simpl in *.
    by apply Forall_app.
Qed.

Lemma slice_to_bound (l : list string) (m : nat) :
  length (slice_to l (Z.of_nat m)) ≤ m.
Proof.
  unfold slice_to. rewrite bool_decide_eq_true_2, Nat2Z.id by lia.
  rewrite length_take. lia.
Qed.

(** X14: whatever the provider answers or raises, and however far the
    generator of [GoogleAPITranslatorService.translate_strings] is
    consumed, with a maximum segment count [m] (zero included) all a run
    does is hand texts over and call the paid API for the given languages
    with at most [m] items: no request is ever larger than the maximum. *)
Theorem GoogleAPI_never_exceeds_max_segments
    env self strings tgt src m fuel h :
  inst_class self = GoogleAPITranslatorService →
  max_segments self = Some (Z.of_nat m) →
  Forall (within_batch tgt src m)
    (translate_all env fuel self strings tgt src h).1.
Proof.
  intros Hc Hmax. unfold translate_all.
  rewrite run_bind, (GoogleAPI_translate_strings_lazy _ _ _ _ _ _ Hc).
  rewrite app_nil_r.
  pose proof (consume_Forall env
    (λ g, ∃ l y, g = GoogleAPI_frame self l tgt src y)
    (within_batch tgt src m)) as Hinv.
  specialize (Hinv (λ _, I)).
  destruct (consume env fuel _ h) as [t r] eqn:Hrun. cbn [app fst].
  change t with (t, r).1. rewrite <- Hrun. apply Hinv; [|by eexists _, _].
  clear Hrun. intros g h' (l & y & ->).
  destruct y as [[|text pending]|]; cbn [gen_step].
  - unfold get_max_segments. rewrite Hmax, run_bind_ret. simpl.
    split; [constructor|by eexists _, _].
  - simpl. split; [constructor|by eexists _, _].
  - destruct l as [|x l]; [by split; [constructor|]|].
    unfold get_service, get_max_segments.
    destruct (service self); [|by split; [constructor|]].
    rewrite run_bind_ret, Hmax, run_bind_ret, run_bind. unfold call_provider.
    pose proof (slice_to_bound (x :: l) m).
    destruct (translations_list env h' src tgt _); simpl.
    + split; [by repeat constructor|by eexists _, _].
    + split; [by repeat constructor|done].
Qed.

Lemma GoogleAPI_never_exceeds_max_segments_witness :
  Forall (within_batch "fr" "en" 2)
    (translate_all (flaky_env 1) 7 (a_GoogleAPI 2)
       ["a"; "b"; "c"; "d"; "e"] "fr" "en" []).1.
Proof.
  apply (GoogleAPI_never_exceeds_max_segments (flaky_env 1) (a_GoogleAPI 2)
           ["a"; "b"; "c"; "d"; "e"] "fr" "en" 2 7 []); reflexivity.
Defined.

Lemma requests_Called rq rs t : requests (Called rq rs :: t) = rq :: requests t.
Proof. reflexivity. Qed.

Lemma answers_Texts rq l t :
  answers (Called rq (Texts l) :: t) = l :: answers t.
Proof. reflexivity. Qed.

Lemma yields_Called rq rs t : yields (Called rq rs :: t) = yields t.
Proof. reflexivity. Qed.

Lemma requests_cons_Yielded v t : requests (Yielded v :: t) = requests t.
Proof. reflexivity. Qed.

Lemma answers_cons_Yielded v t : answers (Yielded v :: t) = answers t.
Proof. reflexivity. Qed.

Lemma yields_cons_Yielded v t : yields (Yielded v :: t) = v :: yields t.
Proof. reflexivity. Qed.

Section GoogleAPI_partial.
Context (env : environment) (self : instance) (tgt src : string) (m : nat).
Context (Hservice : is_Some (service self)).
Context (Hmax : max_segments self = Some (Z.of_nat m)) (Hm : 1 ≤ m).

Lemma consume_GoogleAPI_raise fuel strings yielding h t e :
  consume env fuel (GoogleAPI_frame self strings tgt src yielding) h
    = (t, Raise e) →
  ∃ w k q t0,
    e = ProviderError w ∧
    chunks m (remaining_input m strings yielding) !! k = Some q ∧
    t = t0 ++ [Called (TranslationsList src tgt q) (Failed w)] ∧
    translations_list env (h ++ t0) src tgt q = Fails w ∧
    requests t
      = TranslationsList src tgt <$> take (S k) (chunks m (remaining_input m strings yielding)) ∧
    length (answers t) = k ∧
    yields t = pending_texts yielding ++ concat (answers t).
Proof.
  revert strings yielding h t.
  induction fuel as [|fuel IH]; intros strings yielding h t; [done|].
  rewrite consume_S. destruct yielding as [[|text pending]|].
  - rewrite (step_advance _ _ _ _ _ Hmax Hm).
    destruct (consume env fuel _ _) as [t2 r] eqn:Hrun.
    intros [= <- ->].
    apply IH in Hrun as (w & k & q & t0 & He & Hq & Ht & Hw & Hr & Ha & Hy).
    exists w, k, q, t0. rewrite app_nil_r in Hw. by repeat split.
  - rewrite step_yield.
    destruct (consume env fuel _ _) as [t2 [?|e']] eqn:Hrun; [done|].
    intros [= <- <-].
    apply IH in Hrun as (w & k & q & t0 & He & Hq & Ht & Hw & Hr & Ha & Hy).
    exists w, k, q, (Yielded text :: t0). cbn [app].
    rewrite requests_cons_Yielded, answers_cons_Yielded, yields_cons_Yielded.
    rewrite Hy. cbn [app] in Hw. rewrite <- app_assoc in Hw.
    repeat split; try done. by rewrite Ht.
  - destruct strings as [|x strings]; [done|].
    rewrite (step_head_cons _ _ _ _ _ Hservice Hmax Hm). cbv zeta.
    destruct (translations_list env h src tgt _) as [l|w] eqn:Hcall.
    + destruct (consume env fuel _ _) as [t2 r] eqn:Hrun.
      intros [= <- ->].
      apply IH in Hrun as (w & k & q & t0 & He & Hq & Ht & Hw & Hr & Ha & Hy).
      exists w, (S k), q,
        (Called (TranslationsList src tgt (take m (x :: strings))) (Texts l)
           :: t0).
      cbn [remaining_input pending_texts default app] in *.
      rewrite (chunks_cons m Hm).
      rewrite requests_Called, answers_Texts, yields_Called.
      rewrite Hr, Hy. cbn [length]. rewrite Ha.
      rewrite <- app_assoc in Hw.
      repeat split; try done. by rewrite Ht.
    + intros [= <- <-]. exists w, 0, (take m (x :: strings)), [].
      cbn [remaining_input pending_texts default]. rewrite (chunks_cons m Hm).
      rewrite app_nil_r. by repeat split.
Qed.

Lemma consume_GoogleAPI_prefix fuel strings yielding h :
  requests (consume env fuel
              (GoogleAPI_frame self strings tgt src yielding) h).1
    `prefix_of`
    (TranslationsList src tgt <$> chunks m (remaining_input m strings yielding)) ∧
  yields (consume env fuel
            (GoogleAPI_frame self strings tgt src yielding) h).1
    `prefix_of`
    pending_texts yielding
    ++ concat (answers (consume env fuel
                 (GoogleAPI_frame self strings tgt src yielding) h).1).
Proof.
  revert strings yielding h.
  induction fuel as [|fuel IH]; intros strings yielding h;
    [split; apply prefix_nil|].
  rewrite consume_S. destruct yielding as [[|text pending]|].
  - rewrite (step_advance _ _ _ _ _ Hmax Hm).
    specialize (IH (drop m strings) None (h ++ [])).
    by destruct (consume env fuel _ _) as [t2 r].
  - rewrite step_yield.
    specialize (IH strings (Some pending) (h ++ [] ++ [Yielded text])).
    destruct IH as [IH1 IH2].
    destruct (consume env fuel _ _) as [t2 [?|e']]; cbn [app fst] in *;
      rewrite requests_cons_Yielded, answers_cons_Yielded,
        yields_cons_Yielded;
      (split; [done|by apply (prefix_cons text)]).
  - destruct strings as [|x strings]; [split; apply prefix_nil|].
    rewrite (step_head_cons _ _ _ _ _ Hservice Hmax Hm). cbv zeta.
    cbn [remaining_input pending_texts default]. rewrite (chunks_cons m Hm).
    destruct (translations_list env h src tgt _) as [l|w].
    + specialize (IH (x :: strings) (Some l)
                    (h ++ [Called
                       (TranslationsList src tgt (take m (x :: strings)))
                       (Texts l)])).
      destruct IH as [IH1 IH2].
      destruct (consume env fuel _ _) as [t2 r]. cbn [app fst] in *.
      rewrite requests_Called, answers_Texts, yields_Called.
      split; [by apply prefix_cons|done].
    + split; [|apply prefix_nil]. apply prefix_cons, prefix_nil.
Qed.
End GoogleAPI_partial.

(** X15: when consuming the generator of
    [GoogleAPITranslatorService.translate_strings], with a maximum segment
    count of at least one, ends in the exception [w] that a call of the
    provider raised, that call is the one on some chunk number [k] of the
    input, and it is the last thing that happened: the environment's
    [translations_list], asked for that chunk after everything before,
    raises [w]; the chunks [0] to [k] were requested, in order and nothing
    else; and the answers to the [k] calls before were handed over whole,
    so that nothing of the failed chunk and nothing after it was produced.
    Which exceptions other than the provider's own a response of another
    shape would raise is not stated here. *)
Theorem GoogleAPI_failure_mid_sequence
    env self strings tgt src M fuel h t w :
  inst_class self = GoogleAPITranslatorService →
  is_Some (service self) →
  max_segments self = Some M → (1 ≤ M)%Z →
  translate_all env fuel self strings tgt src h
    = (t, Raise (ProviderError w)) →
  ∃ k q t0,
    chunks (Z.to_nat M) strings !! k = Some q ∧
    t = t0 ++ [Called (TranslationsList src tgt q) (Failed w)] ∧
    translations_list env (h ++ t0) src tgt q = Fails w ∧
    requests t
      = TranslationsList src tgt <$> take (S k) (chunks (Z.to_nat M) strings) ∧
    length (answers t) = k ∧
    yields t = concat (answers t).
Proof.
  intros Hc Hs Hmax HM. unfold translate_all.
  rewrite run_bind, (GoogleAPI_translate_strings_lazy _ _ _ _ _ _ Hc).
  rewrite app_nil_r.
  destruct (consume env fuel _ h) as [t' r] eqn:Hrun. intros [= <- ->].
  rewrite <- (Z2Nat.id M) in Hmax by lia.
  apply (consume_GoogleAPI_raise env self tgt src (Z.to_nat M) Hs Hmax) in Hrun
    as (w' & k & q & t0 & [= <-] & Hrest); [|lia].
  by exists k, q, t0.
Qed.

Lemma GoogleAPI_failure_mid_sequence_witness :
  ∃ k q t0,
    chunks (Z.to_nat 2) ["a"; "b"; "c"; "d"; "e"] !! k = Some q ∧
    [Called (TranslationsList "en" "fr" ["a"; "b"]) (Texts ["tr:a"; "tr:b"]);
     Yielded "tr:a"; Yielded "tr:b";
     Called (TranslationsList "en" "fr" ["c"; "d"]) (Failed "quota exceeded")]
      = t0 ++ [Called (TranslationsList "en" "fr" q) (Failed "quota exceeded")] ∧
    translations_list (flaky_env 1) ([] ++ t0) "en" "fr" q
      = Fails "quota exceeded" ∧
    requests
      [Called (TranslationsList "en" "fr" ["a"; "b"]) (Texts ["tr:a"; "tr:b"]);
       Yielded "tr:a"; Yielded "tr:b";
       Called (TranslationsList "en" "fr" ["c"; "d"]) (Failed "quota exceeded")]
      = TranslationsList "en" "fr"
          <$> take (S k) (chunks (Z.to_nat 2) ["a"; "b"; "c"; "d"; "e"]) ∧
    length (answers
      [Called (TranslationsList "en" "fr" ["a"; "b"]) (Texts ["tr:a"; "tr:b"]);
       Yielded "tr:a"; Yielded "tr:b";
       Called (TranslationsList "en" "fr" ["c"; "d"]) (Failed "quota exceeded")])
      = k ∧
    yields
      [Called (TranslationsList "en" "fr" ["a"; "b"]) (Texts ["tr:a"; "tr:b"]);
       Yielded "tr:a"; Yielded "tr:b";
       Called (TranslationsList "en" "fr" ["c"; "d"]) (Failed "quota exceeded")]
      = concat (answers
      [Called (TranslationsList "en" "fr" ["a"; "b"]) (Texts ["tr:a"; "tr:b"]);
       Yielded "tr:a"; Yielded "tr:b";
       Called (TranslationsList "en" "fr" ["c"; "d"]) (Failed "quota exceeded")]).
Proof.
  apply (GoogleAPI_failure_mid_sequence (flaky_env 1) (a_GoogleAPI 2)
           ["a"; "b"; "c"; "d"; "e"] "fr" "en" 2 20 []).
  - reflexivity.
  - by eexists.
  - reflexivity.
  - lia.
  - reflexivity.
Defined.

(** X16: however far the generator of
    [GoogleAPITranslatorService.translate_strings] is consumed and whatever
    the provider does, with a maximum segment count of at least one, the
    requests made so far are the first chunks of the input, in order, and
    the texts handed over so far are an initial part of the answers
    received so far, in order: a chunk is only requested in its turn, and
    nothing is handed over that the provider did not return. *)
Theorem GoogleAPI_partial_run_in_order env self strings tgt src M fuel h :
  inst_class self = GoogleAPITranslatorService →
  is_Some (service self) →
  max_segments self = Some M → (1 ≤ M)%Z →
  requests (translate_all env fuel self strings tgt src h).1
    `prefix_of` (TranslationsList src tgt <$> chunks (Z.to_nat M) strings) ∧
  yields (translate_all env fuel self strings tgt src h).1
    `prefix_of`
    concat (answers (translate_all env fuel self strings tgt src h).1).
Proof.
  intros Hc Hs Hmax HM. unfold translate_all.
  rewrite run_bind, (GoogleAPI_translate_strings_lazy _ _ _ _ _ _ Hc).
  rewrite app_nil_r.
  rewrite <- (Z2Nat.id M) in Hmax by lia.
  pose proof (consume_GoogleAPI_prefix env self tgt src (Z.to_nat M) Hs Hmax
                ltac:(lia) fuel strings None h) as Hp.
  by destruct (consume env fuel _ h) as [t r].
Qed.

Lemma GoogleAPI_partial_run_in_order_witness :
  requests (translate_all (full_env None) 4 (a_GoogleAPI 2)
              ["a"; "b"; "c"; "d"; "e"] "fr" "en" []).1
    `prefix_of`
    (TranslationsList "en" "fr" <$> chunks (Z.to_nat 2) ["a"; "b"; "c"; "d"; "e"]) ∧
  yields (translate_all (full_env None) 4 (a_GoogleAPI 2)
            ["a"; "b"; "c"; "d"; "e"] "fr" "en" []).1
    `prefix_of`
    concat (answers (translate_all (full_env None) 4 (a_GoogleAPI 2)
                       ["a"; "b"; "c"; "d"; "e"] "fr" "en" []).1).
Proof.
  apply (GoogleAPI_partial_run_in_order (full_env None) (a_GoogleAPI 2)
           ["a"; "b"; "c"; "d"; "e"] "fr" "en" 2 4 []).
  - reflexivity.
  - by eexists.
  - reflexivity.
  - lia.
Defined.

Lemma consume_Amazon_raise env self strings tgt src fuel h t e :
  inst_class self = AmazonTranslateTranslatorService →
  is_Some (service self) →
  consume env fuel (Amazon_frame self strings tgt src) h = (t, Raise e) →
  ∃ k x w,
    strings !! k = Some x ∧
    e = ProviderError w ∧
    length (per_item_answers env tgt src strings h) = k ∧
    t = per_item_trace tgt src (take k strings)
          (per_item_answers env tgt src strings h)
        ++ [Called (TranslateText x src tgt) (Failed w)] ∧
    translate_text env
      (h ++ per_item_trace tgt src (take k strings)
              (per_item_answers env tgt src strings h)) x src tgt = Fails w.
Proof.
  intros Hc Hs. revert fuel h t.
  induction strings as [|y strings IH]; intros [|fuel] h t Hrun; try done.
  rewrite consume_S in Hrun. cbn [gen_step] in Hrun.
  rewrite run_bind, (Amazon_translate_string _ _ _ _ _ _ Hc Hs) in Hrun.
  cbn [per_item_answers].
  destruct (translate_text env h y src tgt) as [z|w] eqn:Hz; cbn in Hrun.
  - destruct (consume env fuel _ _) as [t2 [?|e']] eqn:Hrun2; [done|].
    injection Hrun as <- <-.
    apply IH in Hrun2 as (k & x & w & Hx & He & Hlen & Ht & Hw).
    exists (S k), x, w. rewrite <- app_assoc in Hw.
    repeat split; try done.
    + simpl. by rewrite Hlen.
    + by rewrite Ht.
  - injection Hrun as <- <-. exists 0, y, w.
    repeat split; try done. cbn. by rewrite app_nil_r.
Qed.

(** X17: when consuming the generator of
    [AmazonTranslateTranslatorService.translate_strings] ends in the
    exception [w] that a call of the provider raised, that call is the one
    on some item number [k], and it is the last thing that happened: before
    it, the items [0] to [k - 1] were each requested and the texts that
    [translate_text] returned for them handed over, in order; the
    environment's [translate_text], asked for item [k] after all that,
    raises [w]; and no later item was requested. Which exceptions other
    than the provider's own a response of another shape would raise is not
    stated here. *)
Theorem Amazon_failure_mid_sequence env self strings tgt src fuel h t w :
  inst_class self = AmazonTranslateTranslatorService →
  is_Some (service self) →
  translate_all env fuel self strings tgt src h
    = (t, Raise (ProviderError w)) →
  ∃ k x,
    strings !! k = Some x ∧
    length (per_item_answers env tgt src strings h) = k ∧
    t = per_item_trace tgt src (take k strings)
          (per_item_answers env tgt src strings h)
        ++ [Called (TranslateText x src tgt) (Failed w)] ∧
    translate_text env
      (h ++ per_item_trace tgt src (take k strings)
              (per_item_answers env tgt src strings h)) x src tgt = Fails w.
Proof.
  intros Hc Hs. unfold translate_all.
  rewrite run_bind, (Amazon_translate_strings_lazy _ _ _ _ _ _ Hc).
  rewrite app_nil_r.
  destruct (consume env fuel _ h) as [t' r] eqn:Hrun. intros [= <- ->].
  apply (consume_Amazon_raise env self strings tgt src fuel h _ _ Hc Hs)
    in Hrun as (k & x & w' & Hx & [= <-] & Hrest).
  by exists k, x.
Qed.

Lemma Amazon_failure_mid_sequence_witness :
  ∃ k x,
    ["a"; "b"; "c"] !! k = Some x ∧
    length (per_item_answers (flaky_env 1) "fr" "en" ["a"; "b"; "c"] []) = k ∧
    [Called (TranslateText "a" "en" "fr") (OneText "tr:a"); Yielded "tr:a";
     Called (TranslateText "b" "en" "fr") (Failed "quota exceeded")]
    = per_item_trace "fr" "en" (take k ["a"; "b"; "c"])
        (per_item_answers (flaky_env 1) "fr" "en" ["a"; "b"; "c"] [])
      ++ [Called (TranslateText x "en" "fr") (Failed "quota exceeded")] ∧
    translate_text (flaky_env 1)
      ([] ++ per_item_trace "fr" "en" (take k ["a"; "b"; "c"])
               (per_item_answers (flaky_env 1) "fr" "en" ["a"; "b"; "c"] []))
      x "en" "fr" = Fails "quota exceeded".
Proof.
  apply (Amazon_failure_mid_sequence (flaky_env 1) an_Amazon
           ["a"; "b"; "c"] "fr" "en" 10 []).
  - reflexivity.
  - by eexists.
  - reflexivity.
Defined.

(** ** A maximum segment count that is not positive *)

Lemma slice_from_nonpositive (l : list string) (M : Z) :
  (M ≤ 0)%Z → l ≠ [] → slice_from l M ≠ [].
Proof.
  intros HM Hl Hnil. apply (f_equal length) in Hnil.
  unfold slice_from in Hnil. destruct l as [|x l]; [done|].
  case_bool_decide.
  - replace (Z.to_nat M) with 0 in Hnil by lia. done.
  - rewrite length_drop in Hnil. simpl in Hnil. lia.
Qed.

Lemma consume_GoogleAPI_nonpositive env self tgt src M :
  is_Some (service self) → max_segments self = Some M → (M ≤ 0)%Z →
  translations_list_answers (λ _ _, True) env tgt src →
  ∀ fuel strings yielding h,
    strings ≠ [] →
    (consume env fuel
       (GoogleAPI_frame self strings tgt src yielding) h).2 = Ok None.
Proof.
  intros [svc Hs] Hmax HM Hp.
  induction fuel as [|fuel IH]; intros strings yielding h Hne; [done|].
  rewrite consume_S. destruct yielding as [[|text pending]|]; cbn [gen_step].
  - unfold get_max_segments. rewrite Hmax, run_bind_ret, run_ret.
    specialize (IH (slice_from strings M) None (h ++ [])
                  (slice_from_nonpositive _ _ HM Hne)).
    by destruct (consume env fuel _ _).
  - rewrite run_ret.
    specialize (IH strings (Some pending) (h ++ [] ++ [Yielded text]) Hne).
    destruct (consume env fuel _ _) as [t2 [rest|e]]; simpl in *; [|done].
    by injection IH as ->.
  - destruct strings as [|x strings]; [done|].
    unfold get_service, get_max_segments.
    rewrite Hs, Hmax, !run_bind_ret, run_bind. unfold call_provider.
    destruct (Hp h (slice_to (x :: strings) M)) as (l & -> & _).
    cbn [mret prog_ret].
    specialize (IH (x :: strings) (Some l)
      (h ++ [Called (TranslationsList src tgt (slice_to (x :: strings) M))
               (Texts l)] ++ []) Hne).
    by destruct (consume env fuel _ _).
Qed.

(** X18: the constructor accepts any maximum segment count, and with one
    that is zero or negative the loop of
    [GoogleAPITranslatorService.translate_strings] drops no item it has
    sent: on an input with items and a provider that answers, the
    consumption never reaches the end, however many transitions it is
    given. *)
Theorem GoogleAPI_nonpositive_segments_never_end
    env self x strings tgt src M h :
  inst_class self = GoogleAPITranslatorService →
  is_Some (service self) →
  max_segments self = Some M → (M ≤ 0)%Z →
  translations_list_answers (λ _ _, True) env tgt src →
  ∀ fuel, (translate_all env fuel self (x :: strings) tgt src h).2 = Ok None.
Proof.
  intros Hc Hs Hmax HM Hp fuel. unfold translate_all.
  rewrite run_bind, (GoogleAPI_translate_strings_lazy _ _ _ _ _ _ Hc).
  rewrite app_nil_r.
  pose proof (consume_GoogleAPI_nonpositive env self tgt src M Hs Hmax HM Hp
                fuel (x :: strings) None h ltac:(done)) as Hrun.
  by destruct (consume env fuel _ h) as [t r].
Qed.

Lemma GoogleAPI_nonpositive_segments_never_end_witness :
  (translate_all (full_env None) 1000 (a_GoogleAPI (-1))
     ["a"; "b"; "c"] "fr" "en" []).2 = Ok None.
Proof.
  apply (GoogleAPI_nonpositive_segments_never_end (full_env None)
           (a_GoogleAPI (-1)) "a" ["b"; "c"] "fr" "en" (-1) []).
  - reflexivity.
  - by eexists.
  - reflexivity.
  - lia.
  - intros h q. eexists. split; [reflexivity|exact I].
Defined.

(** With a negative count the first request still goes out: all but the
    last item. *)
Example GoogleAPI_negative_segments_first_request :
  requests (translate_all (full_env None) 5 (a_GoogleAPI (-1))
              ["a"; "b"; "c"] "fr" "en" []).1
  = [TranslationsList "en" "fr" ["a"; "b"];
     TranslationsList "en" "fr" []].
Proof. reflexivity. Qed.

(** ** All backends *)

(** X19: however far the generator of
    [AmazonTranslateTranslatorService.translate_strings] is consumed and
    whatever the provider does, the requests made so far are for the first
    items of the input, one item each and in order, and the texts handed
    over so far are exactly the texts the calls returned: each text is
    handed over before the next item is requested. *)
Theorem Amazon_partial_run_in_order env self strings tgt src fuel h :
  inst_class self = AmazonTranslateTranslatorService →
  is_Some (service self) →
  requests (translate_all env fuel self strings tgt src h).1
    `prefix_of` ((λ x, TranslateText x src tgt) <$> strings) ∧
  yields (translate_all env fuel self strings tgt src h).1
  = one_texts (translate_all env fuel self strings tgt src h).1.
Proof.
  intros Hc Hs. unfold translate_all.
  rewrite run_bind, (Amazon_translate_strings_lazy _ _ _ _ _ _ Hc).
  rewrite app_nil_r.
  assert (requests (consume env fuel (Amazon_frame self strings tgt src) h).1
            `prefix_of` ((λ x, TranslateText x src tgt) <$> strings) ∧
          yields (consume env fuel (Amazon_frame self strings tgt src) h).1
          = one_texts
              (consume env fuel (Amazon_frame self strings tgt src) h).1)
    as Hp.
  { revert fuel h.
    induction strings as [|y strings IH]; intros [|fuel] h;
      try (split; [apply prefix_nil|reflexivity]).
    rewrite consume_S. cbn [gen_step].
    rewrite run_bind, (Amazon_translate_string _ _ _ _ _ _ Hc Hs).
    destruct (translate_text env h y src tgt) as [z|w]; cbn.
    - specialize (IH fuel
        (h ++ [Called (TranslateText y src tgt) (OneText z)] ++ [Yielded z])).
      destruct IH as [IH1 IH2].
      destruct (consume env fuel _ _) as [t2 [?|e']]; cbn [fst] in *;
        (split; [by apply prefix_cons|]);
        unfold yields, one_texts in *; cbn; by rewrite IH2.
    - split; [apply prefix_cons, prefix_nil|reflexivity]. }
  by destruct (consume env fuel _ h) as [t r].
Qed.

Lemma Amazon_partial_run_in_order_witness :
  requests (translate_all (flaky_env 2) 2 an_Amazon
              ["a"; "b"; "c"] "fr" "en" []).1
    `prefix_of` ((λ x, TranslateText x "en" "fr") <$> ["a"; "b"; "c"]) ∧
  yields (translate_all (flaky_env 2) 2 an_Amazon
            ["a"; "b"; "c"] "fr" "en" []).1
  = one_texts (translate_all (flaky_env 2) 2 an_Amazon
                 ["a"; "b"; "c"] "fr" "en" []).1.
Proof.
  apply (Amazon_partial_run_in_order (flaky_env 2) an_Amazon
           ["a"; "b"; "c"] "fr" "en" 2 []).
  - reflexivity.
  - by eexists.
Defined.

(** X20: [GoogleTranslatorService.translate_strings] does not compare what
    the provider returns with what it sent: when the provider answers the
    one request with the texts [l], the generator hands over exactly [l],
    also when [l] has fewer or more texts than the input has items. *)
Theorem Google_hands_over_the_answer env self strings tgt src h l :
  inst_class self = GoogleTranslatorService →
  is_Some (service self) →
  googletrans_translate_many env h strings tgt src = Reply l →
  ∀ fuel, length l < fuel →
    translate_all env fuel self strings tgt src h =
    (Called (GoogletransTranslateMany strings tgt src) (Texts l)
       :: (Yielded <$> l),
     Ok (Some l)).
Proof.
  intros Hc Hs Hl fuel Hfuel. unfold translate_all.
  rewrite run_bind, (Google_translate_strings_call _ _ _ _ _ _ Hc Hs), Hl.
  by rewrite consume_GenExpr by lia.
Qed.

Lemma Google_hands_over_the_answer_witness :
  translate_all (full_env None) 3 a_Google ["a"; "b"] "fr" "en" [] =
  (Called (GoogletransTranslateMany ["a"; "b"] "fr" "en")
     (Texts ["tr:a"; "tr:b"])
     :: (Yielded <$> ["tr:a"; "tr:b"]),
   Ok (Some ["tr:a"; "tr:b"])).
Proof.
  apply (Google_hands_over_the_answer (full_env None) a_Google
           ["a"; "b"] "fr" "en" [] ["tr:a"; "tr:b"]).
  - reflexivity.
  - by eexists.
  - reflexivity.
  - simpl. lia.
Defined.

